(** * DesignSenseAI: shortlist, ranking, feature averages and recommendation cards

    A shallow embedding of the client-side logic of
    [frontend/src/pages/ModelAdvisor.tsx], [SupplierInsights.tsx] and
    [BuyerInsights.tsx], with the record shapes of [types/analytics.ts].

    Conventions of the embedding.
    - A JavaScript [number] is an exact rational [Q]: the arithmetic of the
      pages ([+], [-], [*], [/], comparisons) is read over the rationals and
      the rounding of IEEE doubles is not modelled.
    - [T | null] and optional fields are [option T]; [x ?? d] is [nullish].
    - [Record<string, T>] is an association list in enumeration order.
    - Arrays are lists; [Array.prototype.sort] is a stable insertion sort
      driven by the sign of the comparator. It is the order every engine
      gives when the comparator is consistent on the elements sorted; for an
      inconsistent comparator the order is the engine's own, and only the
      permutation is relied on.
    - Mutation of the local [cards] array is explicit state passing. *)

From Stdlib Require Import String Ascii DecimalString.
From Stdlib Require Import List Bool Arith ZArith QArith Qabs Qround Qminmax.
From Stdlib Require Import Lia Lqa Permutation.
From Equations Require Import Equations.
Import ListNotations.

Local Open Scope Q_scope.
Local Open Scope list_scope.

(** ** JavaScript primitives used by the pages *)

Module JS.

Definition nullish {A : Type} (o : option A) (d : A) : A :=
  match o with Some x => x | None => d end.

Definition isSome {A : Type} (o : option A) : bool :=
  match o with Some _ => true | None => false end.

(** [x > y] and [x <= y] on numbers. *)
Definition gtb (x y : Q) : bool := negb (Qle_bool x y).
Definition leb (x y : Q) : bool := Qle_bool x y.

(** Truthiness of a number: every number but zero. *)
Definition truthy (x : Q) : bool := negb (Qeq_bool x 0).

(** Truthiness of a [number | null]. *)
Definition truthyN (o : option Q) : bool :=
  match o with Some x => truthy x | None => false end.

Definition Math_max (x y : Q) : Q := if Qle_bool x y then y else x.
Definition Math_abs (x : Q) : Q := Qabs x.

Definition MAX_SAFE_INTEGER : Q := 9007199254740991.

(** [arr.length] as a number of elements; [!arr.length] is [isEmpty]. *)
Definition isEmpty {A : Type} (l : list A) : bool :=
  match l with [] => true | _ :: _ => false end.

(** [arr.slice(start, end)] with the relative-index rule of the language:
    a negative index counts from the end, and both are clamped. *)
Definition relIndex (len i : Z) : Z :=
  if (i <? 0)%Z then Z.max (len + i) 0 else Z.min i len.

Definition slice {A : Type} (start stop : Z) (l : list A) : list A :=
  let len := Z.of_nat (length l) in
  let k := relIndex len start in
  let final := relIndex len stop in
  firstn (Z.to_nat (final - k)) (skipn (Z.to_nat k) l).

(** [arr.sort(cmp)]: stable; [a] is moved behind [b] only when
    [cmp(a, b) > 0]. The order is the language's for a comparator that is
    consistent on the elements of the array; otherwise the language leaves
    the order to the engine. *)
Section Sort.
Context {A : Type} (cmp : A -> A -> Q).

Fixpoint insert (x : A) (l : list A) : list A :=
  match l with
  | [] => [x]
  | y :: t => if gtb (cmp x y) 0 then y :: insert x t else x :: y :: t
  end.

Fixpoint sort (l : list A) : list A :=
  match l with
  | [] => []
  | x :: t => insert x (sort t)
  end.
End Sort.

(** [arr.includes(s)] on an array of strings. *)
Definition includes (l : list string) (s : string) : bool :=
  existsb (String.eqb s) l.

(** [record[key]] on a [Record<string, T>]. *)
Fixpoint lookup {A : Type} (key : string) (r : list (string * A)) : option A :=
  match r with
  | [] => None
  | (k, v) :: t => if String.eqb k key then Some v else lookup key t
  end.

(** The property names that every object inherits from [Object.prototype]. *)
Definition inheritedKeys : list string :=
  [ "constructor"; "hasOwnProperty"; "isPrototypeOf"; "propertyIsEnumerable";
    "toLocaleString"; "toString"; "valueOf"; "__defineGetter__";
    "__defineSetter__"; "__lookupGetter__"; "__lookupSetter__"; "__proto__" ]%string.

(** What [record[key] ?? null] reads from a parsed [Record<string, T>]: the
    record's own value; or, for a key the record does not have but every
    object inherits, a value that is no [T] (a function, or the prototype
    object); or [null]. *)
Inductive Fetched (A : Type) : Type :=
| Found (v : A)
| Foreign
| Absent.
Arguments Found {A} v.
Arguments Foreign {A}.
Arguments Absent {A}.

Definition fetch {A : Type} (key : string) (r : list (string * A)) : Fetched A :=
  match lookup key r with
  | Some v => Found v
  | None => if includes inheritedKeys key then Foreign else Absent
  end.

(** A computation that returns a value or throws. *)
Inductive Outcome (A : Type) : Type :=
| Returned (a : A)
| Thrown.
Arguments Returned {A} a.
Arguments Thrown {A}.

(** [Number(x.toFixed(2))]: the sign is split off, a magnitude of at least
    [10^21] is printed in full, and otherwise the integer [n] with
    [n / 100] nearest to the magnitude is taken, the larger one on a tie. *)
Definition toFixed2 (x : Q) : Q :=
  let neg := gtb 0 x in
  let ax := if neg then - x else x in
  let m := if leb (1000000000000000000000 # 1) ax then ax
           else inject_Z (Qfloor (ax * 100 + (1 # 2))) / 100 in
  if neg then - m else m.

End JS.

Notation "a ?? b" := (JS.nullish a b) (at level 45, left associativity).
Infix "+++" := String.append (right associativity, at level 60).

(** ** ModelAdvisor.tsx *)

Module ModelAdvisor.
Import JS.

Record ModelAdvisorModel := {
  brand : string;
  model : string;
  avg_rating : option Q;
  avg_price_usd : option Q;
  avg_price_inr : option Q;
  avg_battery_rating : option Q;
  avg_camera_rating : option Q;
  avg_display_rating : option Q;
  avg_performance_rating : option Q;
  review_count : Q
}.

Record ModelAdvisorBrand := {
  mb_brand : string;
  mb_models : list ModelAdvisorModel
}.

Record ModelAdvisorResponse := {
  brands : list ModelAdvisorBrand;
  models : list ModelAdvisorModel;
  usd_to_inr : Q
}.

Definition brandOptions (data : option ModelAdvisorResponse) : list string :=
  match data with
  | Some d => map mb_brand (brands d)
  | None => []
  end.

(** The state-normalising effect, for the [budgetBrand] cell. *)
Definition normalizeBudgetBrand (options : list string) (budgetBrand : string) : string :=
  if isEmpty options then "all"%string
  else if negb (String.eqb budgetBrand "all") && negb (includes options budgetBrand)
       then "all"%string
       else budgetBrand.

(** [budgetValue]: [parsed] is the result of [Number.parseFloat], [None]
    standing for a result that is not finite. *)
Definition budgetValue (parsed : option Q) : option Q :=
  match parsed with
  | Some p => if gtb p 0 then Some p else None
  | None => None
  end.

Definition scopedPool (d : ModelAdvisorResponse) (budgetBrand : string) : list ModelAdvisorModel :=
  if negb (String.eqb budgetBrand "all")
  then filter (fun m => String.eqb (brand m) budgetBrand) (models d)
  else models d.

Definition withPriceAndRating (pool : list ModelAdvisorModel) : list ModelAdvisorModel :=
  filter (fun m => isSome (avg_price_usd m) && isSome (avg_rating m)) pool.

Definition tolerance (budget : option Q) : option Q :=
  match budget with
  | Some b => if truthy b then Some (Math_max (b * (25 # 100)) 100) else None
  | None => None
  end.

Definition withinTolerance (b tol : Q) (eligible : list ModelAdvisorModel) : list ModelAdvisorModel :=
  filter (fun m =>
            let price := avg_price_usd m ?? 0 in
            leb (Math_abs (price - b)) tol) eligible.

Definition workingSet (budget : option Q) (eligible : list ModelAdvisorModel) : list ModelAdvisorModel :=
  match budget, tolerance budget with
  | Some b, Some tol =>
      if truthy b && truthy tol then
        let within := withinTolerance b tol eligible in
        if (3 <=? length within)%nat then within else eligible
      else eligible
  | _, _ => eligible
  end.

Definition epsilon : Q := 1 # 1000000.

(** The comparator handed to [sort]. *)
Definition compareModels (budget : option Q) (a b : ModelAdvisorModel) : Q :=
  let ratingDiff := (avg_rating b ?? 0) - (avg_rating a ?? 0) in
  if gtb (Math_abs ratingDiff) epsilon then
    (if gtb ratingDiff 0 then 1 else -1)
  else
    let byDistance :=
      match budget with
      | Some bd =>
          if truthy bd then
            let diffA := Math_abs ((avg_price_usd a ?? bd) - bd) in
            let diffB := Math_abs ((avg_price_usd b ?? bd) - bd) in
            if gtb (Math_abs (diffA - diffB)) epsilon then Some (diffA - diffB) else None
          else None
      | None => None
      end in
    match byDistance with
    | Some r => r
    | None =>
        let priceA := avg_price_usd a ?? MAX_SAFE_INTEGER in
        let priceB := avg_price_usd b ?? MAX_SAFE_INTEGER in
        priceA - priceB
    end.

Record Shortlist := {
  recommendedModels : list ModelAdvisorModel;
  candidatePool : list ModelAdvisorModel
}.

Definition noShortlist : Shortlist :=
  {| recommendedModels := []; candidatePool := [] |}.

(** The memoised computation of [recommendedModels] and [candidatePool]. *)
Definition shortlist (data : option ModelAdvisorResponse) (budget : option Q)
           (budgetBrand : string) : Shortlist :=
  match data with
  | None => noShortlist
  | Some d =>
      if isEmpty (models d) then noShortlist
      else
        let eligible := withPriceAndRating (scopedPool d budgetBrand) in
        if isEmpty eligible then noShortlist
        else
          let sorted := sort (compareModels budget) (workingSet budget eligible) in
          {| recommendedModels := slice 0 3 sorted; candidatePool := sorted |}
  end.

(** [averageFeatureSeries] *)
Record FeatureAverage := {
  feature : string;
  rating : Q
}.

Definition metrics : list ((ModelAdvisorModel -> option Q) * string) :=
  [ (avg_camera_rating, "Camera"%string);
    (avg_battery_rating, "Battery"%string);
    (avg_display_rating, "Display"%string);
    (avg_performance_rating, "Performance"%string) ].

Fixpoint present (l : list (option Q)) : list Q :=
  match l with
  | [] => []
  | Some v :: t => v :: present t
  | None :: t => present t
  end.

Definition featureValues (key : ModelAdvisorModel -> option Q)
           (pool : list ModelAdvisorModel) : list Q :=
  present (map key pool).

Definition mean (values : list Q) : Q :=
  fold_left Qplus values 0 / inject_Z (Z.of_nat (length values)).

Definition featureEntry (pool : list ModelAdvisorModel)
           (metric : (ModelAdvisorModel -> option Q) * string) : FeatureAverage :=
  let '(key, label) := metric in
  let values := featureValues key pool in
  let r := if isEmpty values then 0 else toFixed2 (mean values) in
  {| feature := label; rating := r |}.

Definition averageFeatureSeries (pool : list ModelAdvisorModel) : list FeatureAverage :=
  filter (fun entry => gtb (rating entry) 0) (map (featureEntry pool) metrics).

End ModelAdvisor.

(** ** SupplierInsights.tsx *)

Module Supplier.
Import JS.

Record SentimentCounts := {
  Positive : Q;
  Neutral : Q;
  Negative : Q
}.

Record ComplaintEntry := {
  feature : string;
  complaints : Q
}.

Record ModelBreakdownEntry := {
  model : string;
  total_reviews : Q;
  avg_rating : option Q;
  positive_pct : option Q;
  negative_pct : option Q
}.

Record BrandSummary := {
  s_brand : string;
  s_total_reviews : Q;
  s_avg_rating : option Q;
  s_positive_pct : Q;
  s_negative_pct : Q
}.

Record SupplierBrandInsight := {
  summary : BrandSummary;
  bi_complaint_volume : list ComplaintEntry;
  feature_sentiments : list (string * SentimentCounts)
}.

Record BrandOverviewEntry := {
  bo_brand : string;
  bo_total_reviews : Q;
  bo_avg_rating : option Q
}.

Record SupplierDatasetInsight := {
  brand_overview : list BrandOverviewEntry;
  model_breakdown : list (string * list ModelBreakdownEntry);
  complaint_volume : list ComplaintEntry;
  recommendations : list string;
  brand_insights : option (list (string * SupplierBrandInsight))
}.

Inductive RecommendationPriority := Critical | High | Medium.

Record RecommendationCardData := {
  title : string;
  description : string;
  priority : RecommendationPriority
}.

Definition priorities : list RecommendationPriority := [Critical; High; Medium].
Definition MAX_CARDS : nat := 3.

(** [pushCard] on the current [cards]. *)
Definition pushCard (cards : list RecommendationCardData) (title description : string)
  : list RecommendationCardData :=
  let priority := nth_error priorities (length cards) ?? Medium in
  if (length cards <? MAX_CARDS)%nat
  then cards ++ [ {| title := title; description := description; priority := priority |} ]
  else cards.

(** The filler loop [while (cards.length < MAX_CARDS) pushCard(...)]. *)
Equations? fillCards (title description : string) (cards : list RecommendationCardData)
  : list RecommendationCardData by wf (MAX_CARDS - length cards)%nat lt :=
  fillCards title description cards with lt_dec (length cards) MAX_CARDS => {
    | left _ => fillCards title description (pushCard cards title description);
    | right _ => cards }.
Proof.
  unfold pushCard.
  destruct (Nat.ltb_spec (length cards) MAX_CARDS) as [Hlt | Hge]; [| lia].
  rewrite length_app. simpl Datatypes.length. unfold MAX_CARDS in *.
  destruct (length cards) as [| [| [| n]]]; simpl; lia.
Qed.

(** One row of the [featureSentiments] table. *)
Record FeatureSentimentRow := {
  fs_feature : string;
  fs_counts : SentimentCounts;
  fs_total : Q;
  fs_negativeRatio : Q
}.

Definition featureSentimentRow (entry : string * SentimentCounts) : FeatureSentimentRow :=
  let '(feature, counts) := entry in
  let total := Positive counts + Neutral counts + Negative counts in
  let negativeRatio := if truthy total then Negative counts / total else 0 in
  {| fs_feature := feature; fs_counts := counts; fs_total := total;
     fs_negativeRatio := negativeRatio |}.

Definition compareFeatureRows (a b : FeatureSentimentRow) : Q :=
  if negb (Qeq_bool (fs_negativeRatio b) (fs_negativeRatio a))
  then fs_negativeRatio b - fs_negativeRatio a
  else Negative (fs_counts b) - Negative (fs_counts a).

Definition rankedFeatureSentiments (r : list (string * SentimentCounts))
  : list FeatureSentimentRow :=
  sort compareFeatureRows
       (filter (fun entry => gtb (fs_total entry) 0) (map featureSentimentRow r)).

Definition compareNegativePct (a b : ModelBreakdownEntry) : Q :=
  (negative_pct b ?? 0) - (negative_pct a ?? 0).

Definition problematicModel (brandModels : list ModelBreakdownEntry)
  : option ModelBreakdownEntry :=
  hd_error (sort compareNegativePct
                 (filter (fun m => isSome (negative_pct m)) brandModels)).

Definition string_of_nat (n : nat) : string :=
  NilEmpty.string_of_uint (Nat.to_uint n).

Section Cards.
Local Open Scope string_scope.

(** [Number.prototype.toFixed(1)] and [toLocaleString()] produce text
    that depends on the host's number formatting. *)
Variable toFixed1 : Q -> string.
Variable toLocaleString : Q -> string.

Variable scopeLabel : string.

Definition scopeSuffix : string :=
  if String.eqb scopeLabel "All companies" then "" else " for " +++ scopeLabel.

Definition pulseCard (s : BrandSummary) (cards : list RecommendationCardData) :=
  let positive := toFixed1 (s_positive_pct s) in
  let negative := toFixed1 (s_negative_pct s) in
  let averageRating := if truthyN (s_avg_rating s)
                       then toFixed1 (s_avg_rating s ?? 0) else "N/A" in
  pushCard cards
    (s_brand s +++ ": Sentiment pulse")
    (toLocaleString (s_total_reviews s) +++ " reviews" +++ scopeSuffix +++ " show "
     +++ positive +++ "% positive vs " +++ negative
     +++ "% negative sentiment with an average rating of " +++ averageRating
     +++ ". Launch a satisfaction uplift program focused on service quality and proactive outreach.").

Definition stabilizeCard (s : BrandSummary) (cards : list RecommendationCardData)
           (item : ComplaintEntry) :=
  if (length cards <? MAX_CARDS)%nat then
    pushCard cards
      (s_brand s +++ ": Stabilize " +++ feature item)
      ("Sustain a recovery plan for " +++ feature item +++ scopeSuffix
       +++ " by improving diagnostics, releasing incremental firmware tweaks, and communicating timelines to affected customers.")
  else cards.

Definition complaintCards (s : BrandSummary) (complaintList : list ComplaintEntry)
           (cards : list RecommendationCardData) :=
  match complaintList with
  | primaryComplaint :: _ =>
      if (length cards <? MAX_CARDS)%nat then
        let cards1 :=
          pushCard cards
            (s_brand s +++ ": Urgent fix for " +++ feature primaryComplaint)
            (toLocaleString (complaints primaryComplaint)
             +++ " complaints cite " +++ feature primaryComplaint +++ scopeSuffix
             +++ ". Allocate tiger teams across engineering, QA, and support to deliver a hotfix within 2 sprints.") in
        fold_left (stabilizeCard s)
                  (slice 1 (Z.of_nat MAX_CARDS - Z.of_nat (length cards1) + 1) complaintList)
                  cards1
      else cards
  | [] => cards
  end.

Definition redesignCard (s : BrandSummary) (cards : list RecommendationCardData)
           (item : FeatureSentimentRow) :=
  if (MAX_CARDS <=? length cards)%nat then cards
  else
    let negativePct := toFixed1 (fs_negativeRatio item * 100) in
    pushCard cards
      (s_brand s +++ ": Redesign " +++ fs_feature item)
      (negativePct +++ "% of mentions for " +++ fs_feature item +++ scopeSuffix
       +++ " skew negative. Pair usability testing with supplier audits to reverse the sentiment trend.").

Definition featureCards (bi : SupplierBrandInsight) (cards : list RecommendationCardData) :=
  if (length cards <? MAX_CARDS)%nat
  then fold_left (redesignCard (summary bi))
                 (rankedFeatureSentiments (feature_sentiments bi)) cards
  else cards.

Definition modelCard (s : BrandSummary) (brandModels : option (list ModelBreakdownEntry))
           (cards : list RecommendationCardData) :=
  match brandModels with
  | Some bm =>
      if (length cards <? MAX_CARDS)%nat then
        match problematicModel bm with
        | Some pm =>
            if gtb (negative_pct pm ?? 0) 0 then
              pushCard cards
                (s_brand s +++ ": Model recovery for " +++ model pm)
                (match negative_pct pm with Some n => toFixed1 n | None => "--" end
                 +++ "% negative sentiment on " +++ model pm +++ scopeSuffix
                 +++ ". Launch an investigative task force, align firmware fixes, and supply field service guidance to partners.")
            else cards
        | None => cards
        end
      else cards
  | None => cards
  end.

Definition delightTitle (s : BrandSummary) : string :=
  s_brand s +++ ": Customer delight initiative".

Definition delightDescription : string :=
  "Augment post-purchase touchpoints" +++ scopeSuffix
  +++ " with concierge support, extended warranty offers, and proactive communications to reinforce loyalty.".

(** The cards of the brand branch before the filler loop runs. *)
Definition brandSourceCards (complaints : list ComplaintEntry)
           (bi : SupplierBrandInsight)
           (brandModels : option (list ModelBreakdownEntry)) :=
  let s := summary bi in
  modelCard s brandModels
    (featureCards bi
       (complaintCards s complaints
          (pulseCard s []))).

Definition portfolioCard (cards : list RecommendationCardData) (item : ComplaintEntry) :=
  pushCard cards
    ("Portfolio: Fix " +++ feature item)
    (toLocaleString (complaints item) +++ " customers flagged " +++ feature item
     +++ scopeSuffix
     +++ ". Stand up a rapid response squad to triage root causes, ship fixes, and validate improvements with targeted surveys.").

Definition fallbackCard (cards : list RecommendationCardData) (text : string) :=
  let nextNumber := (length cards + 1)%nat in
  let label := if String.eqb scopeLabel "All companies"
               then "Recommendation " +++ string_of_nat nextNumber
               else scopeLabel +++ ": Initiative " +++ string_of_nat nextNumber in
  pushCard cards label
           (if String.eqb scopeLabel "All companies" then text
            else text +++ " (" +++ scopeLabel +++ ")").

Definition monitorCard (cards : list RecommendationCardData) :=
  pushCard cards "Monitor customer signals"
    ("No urgent issues detected" +++ scopeSuffix
     +++ ". Keep pulse on NPS, support tickets, and social channels to catch early sentiment shifts.").

Definition createRecommendationCards
           (complaints : list ComplaintEntry) (fallback : list string)
           (brandInsight : option SupplierBrandInsight)
           (brandModels : option (list ModelBreakdownEntry))
  : list RecommendationCardData :=
  let cards : list RecommendationCardData := [] in
  match brandInsight with
  | Some bi =>
      fillCards (delightTitle (summary bi)) delightDescription
                (brandSourceCards complaints bi brandModels)
  | None =>
      let cards1 :=
        if negb (isEmpty complaints)
        then fold_left portfolioCard
                       (slice 0 (Z.of_nat MAX_CARDS - Z.of_nat (length cards)) complaints)
                       cards
        else cards in
      let cards2 :=
        if (length cards1 <? 3)%nat && negb (isEmpty fallback)
        then fold_left fallbackCard
                       (slice 0 (3 - Z.of_nat (length cards1)) fallback) cards1
        else cards1 in
      if isEmpty cards2 then monitorCard cards2 else cards2
  end.
End Cards.

(** The page's own use of the generator. *)
Definition brandOptions (activeDataset : SupplierDatasetInsight) : list string :=
  map bo_brand (brand_overview activeDataset).

Definition normalizeSelectedBrand (options : list string) (selectedBrand : string) : string :=
  if String.eqb selectedBrand "all" then selectedBrand
  else if negb (includes options selectedBrand) then "all"%string
       else selectedBrand.

Definition brandInsight (activeDataset : SupplierDatasetInsight) (selectedBrand : string)
  : Fetched SupplierBrandInsight :=
  if String.eqb selectedBrand "all" then Absent
  else match brand_insights activeDataset with
       | Some r => fetch selectedBrand r
       | None => Absent
       end.

Definition brandModels (activeDataset : SupplierDatasetInsight) (selectedBrand : string)
  : Fetched (list ModelBreakdownEntry) :=
  if String.eqb selectedBrand "all" then Absent
  else fetch selectedBrand (model_breakdown activeDataset).

(** A foreign value has no [complaint_volume], so the overall list is used. *)
Definition scopedComplaintVolume (activeDataset : SupplierDatasetInsight)
           (selectedBrand : string) : list ComplaintEntry :=
  let overallComplaintVolume := complaint_volume activeDataset in
  slice 0 6
    (match brandInsight activeDataset selectedBrand with
     | Found bi => if isEmpty (bi_complaint_volume bi) then overallComplaintVolume
                   else bi_complaint_volume bi
     | Foreign | Absent => overallComplaintVolume
     end).

(** The call of [createRecommendationCards] by the page. A foreign
    [brandInsight] is truthy and has no [summary], so reading
    [summary.positive_pct] throws; a foreign [brandModels] is truthy and
    cannot be spread, so [[...brandModels]] throws when the model source is
    reached, that is when the cards before it are fewer than [MAX_CARDS]. *)
Definition recommendationCards (toFixed1 toLocaleString : Q -> string)
           (activeDataset : SupplierDatasetInsight) (selectedBrand : string)
  : Outcome (list RecommendationCardData) :=
  let isAll := String.eqb selectedBrand "all" in
  let scopeLabel := if isAll then "All companies"%string else selectedBrand in
  let complaints := scopedComplaintVolume activeDataset selectedBrand in
  let fallback := if isAll then recommendations activeDataset else [] in
  let insight := if isAll then Absent else brandInsight activeDataset selectedBrand in
  let models := if isAll then Absent else brandModels activeDataset selectedBrand in
  let generate := createRecommendationCards toFixed1 toLocaleString scopeLabel
                    complaints fallback in
  match insight, models with
  | Foreign, _ => Thrown
  | Absent, Found bm => Returned (generate None (Some bm))
  | Absent, _ => Returned (generate None None)
  | Found bi, Found bm => Returned (generate (Some bi) (Some bm))
  | Found bi, Absent => Returned (generate (Some bi) None)
  | Found bi, Foreign =>
      let s := summary bi in
      let reached :=
        featureCards toFixed1 scopeLabel bi
          (complaintCards toLocaleString scopeLabel s complaints
             (pulseCard toFixed1 toLocaleString scopeLabel s [])) in
      if (length reached <? MAX_CARDS)%nat then Thrown
      else Returned (generate (Some bi) None)
  end.

(** The titles of the cards, when the call returns. *)
Definition cardTitles (o : Outcome (list RecommendationCardData)) : option (list string) :=
  match o with
  | Returned cards => Some (map title cards)
  | Thrown => None
  end.

End Supplier.

(** ** BuyerInsights.tsx *)

Module Buyer.
Import JS.

Record ModelLeaderboardEntry := {
  lb_brand : string;
  lb_model : string
}.

Record FeatureStrength := {
  sf_feature : string;
  sf_positive_pct : Q;
  sf_mentions : Q
}.

Record ModelAnalysisEntry := {
  brand : string;
  model : string;
  avg_rating : option Q;
  positive_pct : option Q;
  strongest_features : option (list FeatureStrength)
}.

Record BrandAnalysisEntry := {
  ba_brand : string;
  ba_total_reviews : Q;
  ba_positive_pct : Q;
  ba_negative_pct : Q
}.

Record SegmentSummary := {
  total_reviews : option Q;
  seg_positive_pct : option Q;
  seg_negative_pct : option Q
}.

Record BuyerBrandSegment := {
  summary : option SegmentSummary;
  top_models : option (list ModelLeaderboardEntry)
}.

Record BuyerInsightsDataset := {
  brand_analysis : option (list BrandAnalysisEntry);
  model_analysis : option (list ModelAnalysisEntry)
}.

Record BuyerRecommendation := {
  title : string;
  description : string
}.

(** The elements of a parsed array are distinct objects: an object is
    identified by its position in [model_analysis], which is what
    [model !== bestModel] compares. *)
Definition refs {A : Type} (l : list A) : list (nat * A) :=
  combine (seq 0 (length l)) l.

Definition sameObject {A : Type} (x : nat * A) (y : option (nat * A)) : bool :=
  match y with
  | Some y' => Nat.eqb (fst x) (fst y')
  | None => false
  end.

Definition score (m : ModelAnalysisEntry) : Q :=
  (positive_pct m ?? 0) + (avg_rating m ?? 0).

Definition compareScore (a b : nat * ModelAnalysisEntry) : Q :=
  let bScore := score (snd b) in
  let aScore := score (snd a) in
  bScore - aScore.

Definition comparePositive (a b : nat * ModelAnalysisEntry) : Q :=
  (positive_pct (snd b) ?? 0) - (positive_pct (snd a) ?? 0).

Definition scopedModels (dataset : BuyerInsightsDataset) (selectedBrand : string)
  : list (nat * ModelAnalysisEntry) :=
  let modelPool := refs (model_analysis dataset ?? []) in
  if String.eqb selectedBrand "all" then modelPool
  else filter (fun m => String.eqb (brand (snd m)) selectedBrand) modelPool.

Definition scopedBrands (dataset : BuyerInsightsDataset) (selectedBrand : string)
  : list BrandAnalysisEntry :=
  let brandPool := brand_analysis dataset ?? [] in
  if String.eqb selectedBrand "all" then brandPool
  else filter (fun b => String.eqb (ba_brand b) selectedBrand) brandPool.

(** [brandSegment?.top_models], an absent leaderboard read as empty. *)
Definition leaderboard (brandSegment : option BuyerBrandSegment)
  : list ModelLeaderboardEntry :=
  match brandSegment with
  | Some seg => top_models seg ?? []
  | None => []
  end.

Definition matchesEntry (entry : ModelLeaderboardEntry) (m : nat * ModelAnalysisEntry) : bool :=
  String.eqb (brand (snd m)) (lb_brand entry) && String.eqb (model (snd m)) (lb_model entry).

Definition bestModel (pool : list (nat * ModelAnalysisEntry))
           (brandSegment : option BuyerBrandSegment) : option (nat * ModelAnalysisEntry) :=
  match hd_error (sort compareScore pool) with
  | Some m => Some m
  | None =>
      match leaderboard brandSegment with
      | candidate :: _ => find (matchesEntry candidate) pool
      | [] => None
      end
  end.

Definition otherModel (pool : list (nat * ModelAnalysisEntry))
           (brandSegment : option BuyerBrandSegment)
           (best : option (nat * ModelAnalysisEntry)) : option (nat * ModelAnalysisEntry) :=
  match hd_error (sort comparePositive (filter (fun m => negb (sameObject m best)) pool)) with
  | Some m => Some m
  | None =>
      let differs (entry : ModelLeaderboardEntry) :=
        match best with
        | None => true
        | Some b => negb (String.eqb (lb_model entry) (model (snd b)))
                    || negb (String.eqb (lb_brand entry) (brand (snd b)))
        end in
      match find differs (leaderboard brandSegment) with
      | Some fallbackCandidate => find (matchesEntry fallbackCandidate) pool
      | None => None
      end
  end.

(** [arr.push(x)] *)
Definition push {A : Type} (l : list A) (x : A) : list A := l ++ [x].

Section Cards.
Local Open Scope string_scope.

(** Text of a number: [toFixed(1)], [toLocaleString()] and the plain
    conversion of a template literal. *)
Variable toFixed1 : Q -> string.
Variable toLocaleString : Q -> string.
Variable numToString : Q -> string.

Definition interpolate (o : option Q) : string :=
  match o with Some x => numToString x | None => "undefined" end.

Definition topPickCard (selectedBrand : string) (m : ModelAnalysisEntry) : BuyerRecommendation :=
  let positivePct := match positive_pct m with Some p => toFixed1 p | None => "--" end in
  let rating := match avg_rating m with Some r => numToString r | None => "N/A" end in
  {| title := brand m +++ " " +++ model m +++ " is your top pick";
     description :=
       model m +++ " leads "
       +++ (if String.eqb selectedBrand "all" then "across datasets" else "within the brand")
       +++ " with " +++ positivePct +++ "% positive sentiment and an average rating of "
       +++ rating +++ ". Prioritize this model if you need a balanced flagship experience." |}.

Definition standoutCard (m : ModelAnalysisEntry) (f : FeatureStrength) : BuyerRecommendation :=
  {| title := "What makes " +++ model m +++ " stand out";
     description :=
       sf_feature f +++ " earns " +++ numToString (sf_positive_pct f)
       +++ "% positive feedback (" +++ numToString (sf_mentions f)
       +++ " mentions). Spotlight this feature when comparing against alternatives." |}.

Definition leadingBrandCard (b : BrandAnalysisEntry) : BuyerRecommendation :=
  {| title := ba_brand b +++ " leads the market";
     description :=
       ba_brand b +++ " secures " +++ numToString (ba_positive_pct b)
       +++ "% positive sentiment against " +++ numToString (ba_negative_pct b)
       +++ "% negative across " +++ toLocaleString (ba_total_reviews b)
       +++ " reviews. Use this brand as a benchmark for reliability and customer satisfaction." |}.

Definition brandHealthCard (selectedBrand : string) (totalReviews positivePct negativePct : Q)
  : BuyerRecommendation :=
  {| title := selectedBrand +++ " brand health check";
     description :=
       numToString positivePct +++ "% positive vs " +++ numToString negativePct
       +++ "% negative sentiment across " +++ toLocaleString totalReviews
       +++ " reviews. Reinforce service touchpoints and marketing to keep sentiment trending upward." |}.

Definition highlighted (m : ModelAnalysisEntry) : string :=
  let joined := match strongest_features m with
                | Some fs => String.concat ", " (slice 0 2 (map sf_feature fs))
                | None => ""
                end in
  if String.eqb joined "" then "core usability" else joined.

Definition secondaryCard (m : ModelAnalysisEntry) : BuyerRecommendation :=
  {| title := "Secondary option: " +++ brand m +++ " " +++ model m;
     description :=
       model m +++ " posts " +++ interpolate (positive_pct m)
       +++ "% positive sentiment and "
       +++ match avg_rating m with Some r => numToString r | None => "N/A" end
       +++ " star ratings. Consider it if you value its highlighted features: "
       +++ highlighted m +++ "." |}.

Definition monitorCard : BuyerRecommendation :=
  {| title := "Monitor customer feedback";
     description := "We need more recent reviews for this brand. Keep tracking sentiment to identify winning models as data grows." |}.

(** Source (a) and (b): the top pick and its standout feature. *)
Definition bestModelCards (selectedBrand : string) (best : option (nat * ModelAnalysisEntry))
           (recommendations : list BuyerRecommendation) : list BuyerRecommendation :=
  match best with
  | Some (_, m) =>
      let pushed := push recommendations (topPickCard selectedBrand m) in
      match hd_error (strongest_features m ?? []) with
      | Some standoutFeature => push pushed (standoutCard m standoutFeature)
      | None => pushed
      end
  | None => recommendations
  end.

(** Source (c): the market leader, or the health of the selected brand. *)
Definition brandCards (selectedBrand : string) (brandsInScope : list BrandAnalysisEntry)
           (brandSegment : option BuyerBrandSegment)
           (recommendations : list BuyerRecommendation) : list BuyerRecommendation :=
  if String.eqb selectedBrand "all" then
    match hd_error brandsInScope with
    | Some leadingBrand => push recommendations (leadingBrandCard leadingBrand)
    | None => recommendations
    end
  else
    let analysisEntry := hd_error brandsInScope in
    let segSummary := match brandSegment with Some seg => summary seg | None => None end in
    let pick (scoped : SegmentSummary -> option Q) (plain : BrandAnalysisEntry -> Q) : option Q :=
      match (match segSummary with Some s => scoped s | None => None end) with
      | Some v => Some v
      | None => option_map plain analysisEntry
      end in
    let totalReviews := pick total_reviews ba_total_reviews in
    let positivePct := pick seg_positive_pct ba_positive_pct in
    let negativePct := pick seg_negative_pct ba_negative_pct in
    match totalReviews, positivePct, negativePct with
    | Some t, Some p, Some n => push recommendations (brandHealthCard selectedBrand t p n)
    | _, _, _ => recommendations
    end.

(** Source (d): the secondary option. *)
Definition otherModelCards (other : option (nat * ModelAnalysisEntry))
           (recommendations : list BuyerRecommendation) : list BuyerRecommendation :=
  match other with
  | Some (_, m) => push recommendations (secondaryCard m)
  | None => recommendations
  end.

Definition generateBuyerRecommendations (dataset : BuyerInsightsDataset)
           (selectedBrand : string) (brandSegment : option BuyerBrandSegment)
  : list BuyerRecommendation :=
  let pool := scopedModels dataset selectedBrand in
  let best := bestModel pool brandSegment in
  let r1 := bestModelCards selectedBrand best [] in
  let r2 := brandCards selectedBrand (scopedBrands dataset selectedBrand) brandSegment r1 in
  let r3 := otherModelCards (otherModel pool brandSegment best) r2 in
  let r4 := if isEmpty r3 then push r3 monitorCard else r3 in
  slice 0 4 r4.
End Cards.

End Buyer.

(** ** The specification's own wording, for comparison with the code *)

Module Spec.
Import ModelAdvisor.

(** Section 4.1: [tolerance = max(budget * 0.25, 100)], and the subset of
    eligible candidates with [|price - budget| <= tolerance]; a candidate
    without a price is not within any tolerance. *)
Definition tolerance (b : Q) : Q := Qmax ((25 # 100) * b) 100.

Definition withinBudget (b : Q) (m : ModelAdvisorModel) : bool :=
  match avg_price_usd m with
  | Some price => Qle_bool (Qabs (price - b)) (tolerance b)
  | None => false
  end.

(** "If that subset has at least 3 members, it becomes the working pool;
    otherwise the full eligible pool is used." *)
Definition workingPool (budget : option Q) (eligible : list ModelAdvisorModel)
  : list ModelAdvisorModel :=
  match budget with
  | Some b =>
      let subset := filter (withinBudget b) eligible in
      if (3 <=? length subset)%nat then subset else eligible
  | None => eligible
  end.

(** Both a known price and a known rating. *)
Definition complete (m : ModelAdvisorModel) : Prop :=
  JS.isSome (avg_price_usd m) = true /\ JS.isSome (avg_rating m) = true.

End Spec.

(** ** Reading an absent rating as zero *)

Module ZeroRating.
Import Buyer.

(** The same model with an absent [avg_rating] replaced by a measured 0. *)
Definition measuredZero (m : ModelAnalysisEntry) : ModelAnalysisEntry :=
  {| brand := brand m;
     model := model m;
     avg_rating := Some (avg_rating m ?? 0);
     positive_pct := positive_pct m;
     strongest_features := strongest_features m |}.

Definition measuredZeroRef (r : nat * ModelAnalysisEntry) : nat * ModelAnalysisEntry :=
  (fst r, measuredZero (snd r)).

End ZeroRating.

(** ** Sample snapshots *)

Module Samples.
Local Open Scope string_scope.

(** Two phones rated alike whose prices differ by [2^-21], under [1e-6]. *)
Definition phone (name : string) (price : Q) : ModelAdvisor.ModelAdvisorModel :=
  {| ModelAdvisor.brand := "Acme";
     ModelAdvisor.model := name;
     ModelAdvisor.avg_rating := Some 4;
     ModelAdvisor.avg_price_usd := Some price;
     ModelAdvisor.avg_price_inr := None;
     ModelAdvisor.avg_battery_rating := None;
     ModelAdvisor.avg_camera_rating := Some (9 # 2);
     ModelAdvisor.avg_display_rating := Some 0;
     ModelAdvisor.avg_performance_rating := None;
     ModelAdvisor.review_count := 10 |}.

Definition cheaper : ModelAdvisor.ModelAdvisorModel := phone "One" 100.
Definition dearer : ModelAdvisor.ModelAdvisorModel := phone "Two" (209715201 # 2097152).

Definition snapshot (l : list ModelAdvisor.ModelAdvisorModel) : ModelAdvisor.ModelAdvisorResponse :=
  {| ModelAdvisor.brands := [ {| ModelAdvisor.mb_brand := "Acme"; ModelAdvisor.mb_models := l |} ];
     ModelAdvisor.models := l;
     ModelAdvisor.usd_to_inr := 83 |}.

(** A model without a rating but with the higher positive share, and a
    rated model. *)
Definition unrated : Buyer.ModelAnalysisEntry :=
  {| Buyer.brand := "Acme"; Buyer.model := "One"; Buyer.avg_rating := None;
     Buyer.positive_pct := Some 50; Buyer.strongest_features := Some [] |}.

Definition rated : Buyer.ModelAnalysisEntry :=
  {| Buyer.brand := "Acme"; Buyer.model := "Two"; Buyer.avg_rating := Some 2;
     Buyer.positive_pct := Some 49; Buyer.strongest_features := Some [] |}.

Definition buyerDataset (l : list Buyer.ModelAnalysisEntry) : Buyer.BuyerInsightsDataset :=
  {| Buyer.brand_analysis := None; Buyer.model_analysis := Some l |}.

(** A supplier dataset with one complaint and one free-text recommendation
    and no brand-level detail. *)
Definition supplierDataset : Supplier.SupplierDatasetInsight :=
  {| Supplier.brand_overview :=
     [ {| Supplier.bo_brand := "Acme"; Supplier.bo_total_reviews := 40;
          Supplier.bo_avg_rating := Some 4 |} ];
     Supplier.model_breakdown := [];
     Supplier.complaint_volume := [ {| Supplier.feature := "battery"; Supplier.complaints := 7 |} ];
     Supplier.recommendations := ["Improve battery life"];
     Supplier.brand_insights := None |}.

(** Brand-level detail with a summary and nothing else. *)
Definition bareInsight : Supplier.SupplierBrandInsight :=
  {| Supplier.summary :=
       {| Supplier.s_brand := "Acme"; Supplier.s_total_reviews := 40;
          Supplier.s_avg_rating := Some 4; Supplier.s_positive_pct := 60;
          Supplier.s_negative_pct := 15 |};
     Supplier.bi_complaint_volume := [];
     Supplier.feature_sentiments := [] |}.

Definition blank (x : Q) : string := "".

End Samples.

(** ** Invariants of the card list *)

Module CardInvariants.
Import Supplier.

(** The priorities of the cards, read off in order, are the tier sequence
    cut to the number of cards. *)
Definition positional (cards : list RecommendationCardData) : Prop :=
  map priority cards = firstn (length cards) priorities.

(** A step of the generator keeps the cards it was given and appends to
    them, and keeps the tiers positional. *)
Definition grows (step : list RecommendationCardData -> list RecommendationCardData) : Prop :=
  forall cards, positional cards ->
    positional (step cards) /\ exists added, step cards = cards ++ added.

(** The filler cards for the slots from [used] on. *)
Definition fillers (title description : string) (used : nat) : list RecommendationCardData :=
  map (fun p => {| title := title; description := description; priority := p |})
      (skipn used priorities).

End CardInvariants.

From Stdlib Require Import Sorted.

(** ** The pages around the computations *)

Module ModelAdvisorPage.
Import JS ModelAdvisor.
Local Open Scope string_scope.

(** The state-normalising effect, for the [selectedBrand] cell. *)
Definition normalizeSelectedBrand (options : list string) (selectedBrand : string) : string :=
  if isEmpty options then "all"
  else if negb (String.eqb selectedBrand "all") && negb (includes options selectedBrand)
       then "all"
       else selectedBrand.

(** [visibleModels] *)
Definition visibleModels (data : option ModelAdvisorResponse) (selectedBrand : string)
  : list ModelAdvisorModel :=
  match data with
  | None => []
  | Some d =>
      if String.eqb selectedBrand "all" then models d
      else match find (fun entry => String.eqb (mb_brand entry) selectedBrand) (brands d) with
           | Some target => mb_models target
           | None => []
           end
  end.

(** [comparisonData] *)
Record ComparisonRow := {
  name : string;
  price : Q;
  rating : Q
}.

Definition comparisonRow (m : ModelAdvisorModel) : ComparisonRow :=
  {| name := brand m +++ " " +++ model m;
     price := avg_price_usd m ?? 0;
     rating := avg_rating m ?? 0 |}.

Definition comparisonData (candidatePool : list ModelAdvisorModel) : list ComparisonRow :=
  map comparisonRow (slice 0 8 candidatePool).

(** Candidates with a given rating and a given price. *)
Definition sameKeys (r p : Q) (m : ModelAdvisorModel) : bool :=
  match avg_rating m, avg_price_usd m with
  | Some r', Some p' => Qeq_bool r' r && Qeq_bool p' p
  | _, _ => false
  end.

End ModelAdvisorPage.

Module SupplierPage.
Import JS Supplier.
Local Open Scope string_scope.

(** The titles of the cards without brand-level detail, position by
    position: a fix per complaint, then the free-text recommendations
    numbered by the slot they take. *)
Definition fixTitle (item : ComplaintEntry) : string :=
  "Portfolio: Fix " +++ feature item.

Definition fallbackLabel (scopeLabel : string) (slot : nat) : string :=
  if String.eqb scopeLabel "All companies"
  then "Recommendation " +++ string_of_nat slot
  else scopeLabel +++ ": Initiative " +++ string_of_nat slot.

Definition portfolioTitles (scopeLabel : string) (complaints : list ComplaintEntry)
           (fallback : list string) : list string :=
  let fixes := firstn 3 complaints in
  let texts := firstn (3 - length fixes) fallback in
  match fixes, texts with
  | [], [] => ["Monitor customer signals"]
  | _, _ => (map fixTitle fixes
             ++ map (fallbackLabel scopeLabel) (seq (length fixes + 1) (length texts)))%list
  end.

End SupplierPage.

(** ** Further sample data *)

Module MoreSamples.
Local Open Scope string_scope.

Definition breakdownEntry (name : string) (negative : option Q) : Supplier.ModelBreakdownEntry :=
  {| Supplier.model := name; Supplier.total_reviews := 20; Supplier.avg_rating := Some 4;
     Supplier.positive_pct := Some 50; Supplier.negative_pct := negative |}.

Definition breakdown : list Supplier.ModelBreakdownEntry :=
  [ breakdownEntry "One" (Some 10); breakdownEntry "Two" (Some 30);
    breakdownEntry "Three" None ].

(** The sample supplier dataset with brand-level detail for "Acme". *)
Definition detailedDataset : Supplier.SupplierDatasetInsight :=
  {| Supplier.brand_overview := Supplier.brand_overview Samples.supplierDataset;
     Supplier.model_breakdown := [];
     Supplier.complaint_volume := Supplier.complaint_volume Samples.supplierDataset;
     Supplier.recommendations := Supplier.recommendations Samples.supplierDataset;
     Supplier.brand_insights := Some [("Acme", Samples.bareInsight)] |}.

End MoreSamples.

Module Cycle.
Local Open Scope string_scope.

(** Three phones: the first is rated above the third by more than [1e-6],
    the second lies within [1e-6] of both, and the prices run the other
    way. *)
Definition first : ModelAdvisor.ModelAdvisorModel :=
  {| ModelAdvisor.brand := "Acme"; ModelAdvisor.model := "First";
     ModelAdvisor.avg_rating := Some (40000015 # 10000000);
     ModelAdvisor.avg_price_usd := Some 3;
     ModelAdvisor.avg_price_inr := None; ModelAdvisor.avg_battery_rating := None;
     ModelAdvisor.avg_camera_rating := None; ModelAdvisor.avg_display_rating := None;
     ModelAdvisor.avg_performance_rating := None; ModelAdvisor.review_count := 5 |}.

Definition second : ModelAdvisor.ModelAdvisorModel :=
  {| ModelAdvisor.brand := "Acme"; ModelAdvisor.model := "Second";
     ModelAdvisor.avg_rating := Some (40000008 # 10000000);
     ModelAdvisor.avg_price_usd := Some 2;
     ModelAdvisor.avg_price_inr := None; ModelAdvisor.avg_battery_rating := None;
     ModelAdvisor.avg_camera_rating := None; ModelAdvisor.avg_display_rating := None;
     ModelAdvisor.avg_performance_rating := None; ModelAdvisor.review_count := 5 |}.

Definition third : ModelAdvisor.ModelAdvisorModel :=
  {| ModelAdvisor.brand := "Acme"; ModelAdvisor.model := "Third";
     ModelAdvisor.avg_rating := Some 4;
     ModelAdvisor.avg_price_usd := Some 1;
     ModelAdvisor.avg_price_inr := None; ModelAdvisor.avg_battery_rating := None;
     ModelAdvisor.avg_camera_rating := None; ModelAdvisor.avg_display_rating := None;
     ModelAdvisor.avg_performance_rating := None; ModelAdvisor.review_count := 5 |}.

End Cycle.

(** ** SupplierInsights.tsx: scores, dataset keys *)

Module SupplierScores.
Import JS Supplier.
Local Open Scope string_scope.

(** [toFivePointScore] *)
Definition toFivePointScore (positive total : Q) : Q :=
  if negb (truthy total) then 0
  else
    let scaled := (positive / total) * 5 in
    toFixed2 scaled.

Record RegionEntry := {
  country : string;
  r_total_reviews : Q;
  r_sentiments : SentimentCounts
}.

Record DemographicEntry := {
  age_group : string;
  d_total_reviews : Q;
  d_sentiments : SentimentCounts;
  d_avg_rating : option Q
}.

Record ChartRow := {
  label : string;
  rating : Q;
  reviews : Q
}.

(** The row of [overallCountryData] and [scopedCountryData]. *)
Definition countryRow (region : RegionEntry) : ChartRow :=
  {| label := country region;
     rating := toFivePointScore (Positive (r_sentiments region)) (r_total_reviews region);
     reviews := r_total_reviews region |}.

(** The row of [overallDemographicData] and [scopedDemographicData]. *)
Definition demographicRow (group : DemographicEntry) : ChartRow :=
  {| label := age_group group;
     rating := match d_avg_rating group with
               | Some r => toFixed2 r
               | None => toFivePointScore (Positive (d_sentiments group))
                                          (d_total_reviews group)
               end;
     reviews := d_total_reviews group |}.

Definition overallCountryData (regions : list RegionEntry) : list ChartRow :=
  map countryRow (slice 0 10 regions).

(** The response and the choice of the active dataset. *)
Record SupplierInsightsResponse := {
  datasets : option (list (string * SupplierDatasetInsight));
  overall : option SupplierDatasetInsight
}.

Definition datasetKeys (data : option SupplierInsightsResponse) : list string :=
  match data with
  | None => []
  | Some d =>
      ((if isSome (overall d) then ["overall"] else [])
       ++ map fst (datasets d ?? []))%list
  end.

(** The effect on [activeKey]; an empty key is falsy like [null]. *)
Definition normalizeActiveKey (keys : list string) (activeKey : option string)
  : option string :=
  if isEmpty keys then None
  else match activeKey with
       | Some k =>
           if String.eqb k "" || negb (includes keys k) then hd_error keys
           else Some k
       | None => hd_error keys
       end.

Definition activeDataset (data : option SupplierInsightsResponse)
           (activeKey : option string) : option SupplierDatasetInsight :=
  match data, activeKey with
  | Some d, Some k =>
      if String.eqb k "" then None
      else if String.eqb k "overall" then overall d
           else lookup k (datasets d ?? [])
  | _, _ => None
  end.

End SupplierScores.

Module ScoreSamples.
Local Open Scope string_scope.

Definition region : SupplierScores.RegionEntry :=
  {| SupplierScores.country := "India";
     SupplierScores.r_total_reviews := 4;
     SupplierScores.r_sentiments :=
       {| Supplier.Positive := 3; Supplier.Neutral := 0; Supplier.Negative := 1 |} |}.

Definition ageGroup : SupplierScores.DemographicEntry :=
  {| SupplierScores.age_group := "18-24";
     SupplierScores.d_total_reviews := 4;
     SupplierScores.d_sentiments :=
       {| Supplier.Positive := 3; Supplier.Neutral := 0; Supplier.Negative := 1 |};
     SupplierScores.d_avg_rating := Some (4321 # 1000) |}.

Definition response : SupplierScores.SupplierInsightsResponse :=
  {| SupplierScores.datasets := Some [("amazon", Samples.supplierDataset)];
     SupplierScores.overall := None |}.

End ScoreSamples.

(** ** BuyerInsights.tsx: the brand filter *)

Module BuyerPage.
Import JS Buyer.
Local Open Scope string_scope.

(** The dataset with the brand segments the page reads beside the
    analysis lists. *)
Record BuyerPageDataset := {
  analysis : BuyerInsightsDataset;
  brand_segments : option (list (string * BuyerBrandSegment))
}.

(** [names.add(name)] on a [Set] kept in insertion order. *)
Definition addName (names : list string) (name : string) : list string :=
  if includes names name then names else (names ++ [name])%list.

Definition named (name : string) : bool :=
  negb (String.eqb name "") && negb (String.eqb name "Unknown").

Definition collectNames (names : list string) (candidates : list string) : list string :=
  fold_left (fun acc name => if named name then addName acc name else acc)
            candidates names.

(** [brandOptions]; [localeCompare] is the host's collation. *)
Definition brandOptions (localeCompare : string -> string -> Q)
           (activeDataset : option BuyerPageDataset) : list string :=
  match activeDataset with
  | None => []
  | Some ds =>
      let names := collectNames [] (map ba_brand (brand_analysis (analysis ds) ?? [])) in
      let names' := collectNames names (map fst (brand_segments ds ?? [])) in
      sort localeCompare names'
  end.

(** The segment handed to the generator. *)
Definition brandSegment (ds : BuyerPageDataset) (selectedBrand : string)
  : option BuyerBrandSegment :=
  if String.eqb selectedBrand "all" then None
  else lookup selectedBrand (brand_segments ds ?? []).

(** Models of the given score. *)
Definition scoresAs (s : Q) (m : nat * ModelAnalysisEntry) : bool :=
  Qeq_bool (score (snd m)) s.

End BuyerPage.

(** ** Facts about the primitives *)

Section PrimitiveFacts.
Import JS.

Lemma gtb_true x y : gtb x y = true <-> y < x.
Proof.
  unfold gtb. rewrite negb_true_iff.
  split; intro H.
  - apply Qnot_le_lt. intro Hle. apply Qle_bool_iff in Hle. congruence.
  - destruct (Qle_bool x y) eqn:E; [| reflexivity].
    apply Qle_bool_iff in E. exfalso. apply (Qlt_not_le _ _ H E).
Qed.

Lemma gtb_false x y : gtb x y = false <-> x <= y.
Proof.
  unfold gtb. rewrite negb_false_iff. apply Qle_bool_iff.
Qed.

Lemma leb_true x y : leb x y = true <-> x <= y.
Proof. apply Qle_bool_iff. Qed.

Lemma truthy_true x : truthy x = true <-> ~ x == 0.
Proof.
  unfold truthy. rewrite negb_true_iff. split; intro H.
  - intro E. apply Qeq_bool_iff in E. congruence.
  - destruct (Qeq_bool x 0) eqn:E; [| reflexivity].
    apply Qeq_bool_iff in E. contradiction.
Qed.

Lemma Math_max_Qmax x y : Math_max x y == Qmax x y.
Proof.
  unfold Math_max.
  destruct (Qle_bool x y) eqn:E.
  - apply Qle_bool_iff in E. symmetry. apply Q.max_r. exact E.
  - symmetry. apply Q.max_l. apply Qlt_le_weak. apply gtb_true.
    unfold gtb. rewrite E. reflexivity.
Qed.

Lemma Math_max_lower_r x y : y <= Math_max x y.
Proof.
  unfold Math_max. destruct (Qle_bool x y) eqn:E.
  - apply Qle_refl.
  - apply Qlt_le_weak. apply gtb_true. unfold gtb. rewrite E. reflexivity.
Qed.

Context {A : Type} (cmp : A -> A -> Q).

Lemma insert_perm x l : Permutation (insert cmp x l) (x :: l).
Proof.
  induction l as [| y t IH]; simpl.
  - apply Permutation_refl.
  - destruct (gtb (cmp x y) 0).
    + apply Permutation_trans with (y :: x :: t).
      * apply perm_skip. exact IH.
      * apply perm_swap.
    + apply Permutation_refl.
Qed.

Lemma sort_perm l : Permutation (sort cmp l) l.
Proof.
  induction l as [| x t IH]; simpl.
  - apply perm_nil.
  - apply Permutation_trans with (x :: sort cmp t).
    + apply insert_perm.
    + apply perm_skip. exact IH.
Qed.

Lemma sort_length l : length (sort cmp l) = length l.
Proof. apply Permutation_length, sort_perm. Qed.

Lemma sort_Forall (P : A -> Prop) l : Forall P l -> Forall P (sort cmp l).
Proof.
  intro H. apply Forall_forall. intros x Hin.
  eapply Forall_forall in H; [exact H |].
  eapply Permutation_in; [apply sort_perm | exact Hin].
Qed.

Lemma sort_nil_iff l : sort cmp l = [] <-> l = [].
Proof.
  split; intro H.
  - apply length_zero_iff_nil. rewrite <- sort_length, H. reflexivity.
  - subst. reflexivity.
Qed.

Lemma Forall_firstn (P : A -> Prop) n l : Forall P l -> Forall P (firstn n l).
Proof.
  intro H. revert n. induction H as [| x t Hx Ht IH]; intro n.
  - rewrite firstn_nil. constructor.
  - destruct n as [| n]; simpl; constructor; [exact Hx | apply IH].
Qed.

Lemma slice_from_0 (n : nat) (l : list A) :
  slice 0 (Z.of_nat n) l = firstn n l.
Proof.
  unfold slice, relIndex. simpl.
  destruct (Z.of_nat n <? 0)%Z eqn:E; [apply Z.ltb_lt in E; lia |].
  replace (Z.min 0 (Z.of_nat (length l))) with 0%Z by lia.
  simpl. rewrite Z.sub_0_r.
  destruct (Nat.le_ge_cases n (length l)) as [Hle | Hge].
  - rewrite Z.min_l by lia. rewrite Nat2Z.id. reflexivity.
  - rewrite Z.min_r by lia. rewrite Nat2Z.id.
    rewrite !firstn_all2 by lia. reflexivity.
Qed.

End PrimitiveFacts.

(** ** ModelAdvisor: shortlist and ranking *)

Section ShortlistFacts.
Import JS ModelAdvisor.

Lemma Qle_bool_compat_r a b b' : b == b' -> Qle_bool a b = Qle_bool a b'.
Proof.
  intro E.
  destruct (Qle_bool a b) eqn:L; destruct (Qle_bool a b') eqn:L'; try reflexivity.
  - apply Qle_bool_iff in L. rewrite E in L. apply Qle_bool_iff in L. congruence.
  - apply Qle_bool_iff in L'. rewrite <- E in L'. apply Qle_bool_iff in L'. congruence.
Qed.

Lemma budgetValue_positive parsed b : budgetValue parsed = Some b -> 0 < b.
Proof.
  unfold budgetValue. destruct parsed as [p |]; [| discriminate].
  destruct (gtb p 0) eqn:G; [| discriminate].
  intro E. injection E as <-. apply gtb_true. exact G.
Qed.

Lemma positive_truthy b : 0 < b -> truthy b = true.
Proof.
  intro H. apply truthy_true. intro E. rewrite E in H. apply (Qlt_irrefl _ H).
Qed.

Lemma tolerance_of_budget b :
  0 < b -> tolerance (Some b) = Some (Math_max (b * (25 # 100)) 100).
Proof.
  intro H. unfold tolerance. rewrite (positive_truthy b H). reflexivity.
Qed.

Lemma tolerance_truthy b : truthy (Math_max (b * (25 # 100)) 100) = true.
Proof.
  apply positive_truthy.
  apply Qlt_le_trans with 100; [reflexivity | apply Math_max_lower_r].
Qed.

Lemma tolerance_agrees b : Math_max (b * (25 # 100)) 100 == Spec.tolerance b.
Proof.
  unfold Spec.tolerance. rewrite Math_max_Qmax.
  rewrite (Qmult_comm b). reflexivity.
Qed.

Lemma withPriceAndRating_complete pool :
  Forall Spec.complete (withPriceAndRating pool).
Proof.
  apply Forall_forall. intros m Hin.
  apply filter_In in Hin. destruct Hin as [_ H].
  apply andb_true_iff in H. exact H.
Qed.

Lemma withinTolerance_agrees b eligible :
  Forall Spec.complete eligible ->
  withinTolerance b (Math_max (b * (25 # 100)) 100) eligible
  = filter (Spec.withinBudget b) eligible.
Proof.
  intro Hc. unfold withinTolerance. apply filter_ext_in.
  intros m Hin. eapply Forall_forall in Hc; [| exact Hin].
  destruct Hc as [Hp _]. unfold Spec.withinBudget.
  destruct (avg_price_usd m) as [price |]; [| discriminate]. simpl.
  unfold leb, Math_abs. apply Qle_bool_compat_r. apply tolerance_agrees.
Qed.

Lemma workingSet_subset budget eligible (P : ModelAdvisorModel -> Prop) :
  Forall P eligible -> Forall P (workingSet budget eligible).
Proof.
  intro H. unfold workingSet.
  destruct budget as [b |]; [| exact H].
  destruct (tolerance (Some b)) as [tol |]; [| exact H].
  destruct (truthy b && truthy tol); [| exact H].
  cbv zeta.
  destruct (3 <=? length (withinTolerance b tol eligible))%nat; [| exact H].
  unfold withinTolerance. apply Forall_forall. intros m Hin.
  apply filter_In in Hin. destruct Hin as [Hin _].
  eapply Forall_forall in H; [exact H | exact Hin].
Qed.

Lemma shortlist_recommended data budget budgetBrand :
  recommendedModels (shortlist data budget budgetBrand)
  = firstn 3 (candidatePool (shortlist data budget budgetBrand)).
Proof.
  unfold shortlist.
  destruct data as [d |]; [| reflexivity].
  destruct (isEmpty (models d)); [reflexivity |].
  destruct (isEmpty _); [reflexivity |].
  cbn [recommendedModels candidatePool].
  change 3%Z with (Z.of_nat 3). apply slice_from_0.
Qed.

Lemma workingSet_agrees parsed pool :
  workingSet (budgetValue parsed) (withPriceAndRating pool)
  = Spec.workingPool (budgetValue parsed) (withPriceAndRating pool).
Proof.
  destruct (budgetValue parsed) as [b |] eqn:Hb; [| reflexivity].
  apply budgetValue_positive in Hb.
  unfold workingSet, Spec.workingPool.
  rewrite (tolerance_of_budget b Hb).
  rewrite (positive_truthy b Hb), tolerance_truthy. cbn [andb]. cbv zeta.
  rewrite withinTolerance_agrees by apply withPriceAndRating_complete.
  reflexivity.
Qed.

Lemma workingSet_nil budget : workingSet budget [] = [].
Proof.
  unfold workingSet. destruct budget as [b |]; [| reflexivity].
  destruct (tolerance (Some b)) as [tol |]; [| reflexivity].
  destruct (truthy b && truthy tol); reflexivity.
Qed.

End ShortlistFacts.

(** C2. With a budget [b] present (a finite, positive parse), the working
    pool handed to the ranker is the subset of eligible candidates with
    [|price - b| <= max(0.25 b, 100)] when that subset has at least three
    members, and the whole eligible pool otherwise; without a budget it is
    the whole eligible pool. The candidate pool is that working pool, ranked. *)
Theorem working_pool_selection (parsed : option Q) :
  (forall pool,
      ModelAdvisor.workingSet (ModelAdvisor.budgetValue parsed)
                              (ModelAdvisor.withPriceAndRating pool)
      = Spec.workingPool (ModelAdvisor.budgetValue parsed)
                         (ModelAdvisor.withPriceAndRating pool))
  /\ (forall d budgetBrand,
         ModelAdvisor.candidatePool
           (ModelAdvisor.shortlist (Some d) (ModelAdvisor.budgetValue parsed) budgetBrand)
         = JS.sort (ModelAdvisor.compareModels (ModelAdvisor.budgetValue parsed))
                   (Spec.workingPool
                      (ModelAdvisor.budgetValue parsed)
                      (ModelAdvisor.withPriceAndRating
                         (ModelAdvisor.scopedPool d budgetBrand)))).
Proof.
  split.
  - apply workingSet_agrees.
  - intros d budgetBrand. rewrite <- workingSet_agrees.
    unfold ModelAdvisor.shortlist.
    destruct (JS.isEmpty (ModelAdvisor.models d)) eqn:Em.
    + destruct (ModelAdvisor.models d) as [| m t] eqn:E; [| discriminate].
      unfold ModelAdvisor.scopedPool. rewrite E. simpl.
      destruct (negb (String.eqb budgetBrand "all")); simpl;
        rewrite workingSet_nil; reflexivity.
    + destruct (ModelAdvisor.withPriceAndRating (ModelAdvisor.scopedPool d budgetBrand))
        as [| m t] eqn:E; simpl JS.isEmpty; cbv iota.
      * rewrite workingSet_nil. reflexivity.
      * reflexivity.
Qed.

(** C6. The recommended list is the first three elements of the ranked
    candidate pool: it has at most three elements, exactly
    [min 3 |candidatePool|] of them, and the pool continues it. *)
Theorem recommended_prefix_of_pool
        (data : option ModelAdvisor.ModelAdvisorResponse) (budget : option Q) (budgetBrand : string) :
  let s := ModelAdvisor.shortlist data budget budgetBrand in
  ModelAdvisor.recommendedModels s = firstn 3 (ModelAdvisor.candidatePool s)
  /\ length (ModelAdvisor.recommendedModels s) = Nat.min 3 (length (ModelAdvisor.candidatePool s))
  /\ (length (ModelAdvisor.recommendedModels s) <= 3)%nat
  /\ exists rest, ModelAdvisor.candidatePool s = ModelAdvisor.recommendedModels s ++ rest.
Proof.
  intro s.
  pose proof (shortlist_recommended data budget budgetBrand) as E.
  fold s in E. rewrite E. repeat split.
  - apply length_firstn.
  - rewrite length_firstn. apply Nat.le_min_l.
  - exists (skipn 3 (ModelAdvisor.candidatePool s)). symmetry. apply firstn_skipn.
Qed.

(** C7. Every candidate of [candidatePool], and so every recommended model,
    has both its price and its rating present. *)
Theorem pool_candidates_complete
        (data : option ModelAdvisor.ModelAdvisorResponse) (budget : option Q) (budgetBrand : string) :
  let s := ModelAdvisor.shortlist data budget budgetBrand in
  Forall Spec.complete (ModelAdvisor.candidatePool s)
  /\ Forall Spec.complete (ModelAdvisor.recommendedModels s).
Proof.
  intro s.
  assert (Forall Spec.complete (ModelAdvisor.candidatePool s)) as Hpool.
  { subst s. unfold ModelAdvisor.shortlist.
    destruct data as [d |]; [| constructor].
    destruct (JS.isEmpty (ModelAdvisor.models d)); [constructor |].
    destruct (JS.isEmpty _); [constructor |].
    cbn [ModelAdvisor.candidatePool].
    apply sort_Forall, workingSet_subset, withPriceAndRating_complete. }
  split; [exact Hpool |].
  pose proof (shortlist_recommended data budget budgetBrand) as E.
  fold s in E. rewrite E.
  apply Forall_firstn. exact Hpool.
Qed.

(** ** SupplierInsights: the card generator *)

Section SupplierFacts.
Import JS Supplier CardInvariants.

Lemma positional_nil : positional [].
Proof. reflexivity. Qed.

Lemma positional_capped cards : positional cards -> (length cards <= MAX_CARDS)%nat.
Proof.
  unfold positional. intro H.
  apply (f_equal (@length _)) in H.
  rewrite length_map, length_firstn in H. simpl in H. unfold MAX_CARDS. lia.
Qed.

Lemma tier_at n :
  (n < MAX_CARDS)%nat ->
  firstn (S n) priorities = firstn n priorities ++ [nth_error priorities n ?? Medium].
Proof.
  unfold MAX_CARDS. intro H.
  destruct n as [| [| [| n]]]; try reflexivity. lia.
Qed.

Lemma grows_pushCard title description :
  grows (fun cards => pushCard cards title description).
Proof.
  intros cards H. unfold pushCard.
  destruct (Nat.ltb_spec (length cards) MAX_CARDS) as [Hlt | Hge].
  - split; [| eexists; reflexivity].
    unfold positional. rewrite map_app, length_app, H. simpl.
    rewrite Nat.add_1_r. symmetry. apply tier_at. exact Hlt.
  - split; [exact H |]. exists []. symmetry. apply app_nil_r.
Qed.

Lemma grows_id : grows (fun cards => cards).
Proof.
  intros cards H. split; [exact H |]. exists []. symmetry. apply app_nil_r.
Qed.

Lemma grows_compose f g : grows f -> grows g -> grows (fun cards => g (f cards)).
Proof.
  intros Hf Hg cards H.
  destruct (Hf cards H) as [Pf [af Ef]].
  destruct (Hg (f cards) Pf) as [Pg [ag Eg]].
  split; [exact Pg |].
  exists (af ++ ag). rewrite Eg, Ef. symmetry. apply app_assoc.
Qed.

Lemma grows_fold {X : Type} (step : list RecommendationCardData -> X -> list RecommendationCardData)
      (items : list X) :
  (forall x, grows (fun cards => step cards x)) ->
  grows (fun cards => fold_left step items cards).
Proof.
  intro Hstep. induction items as [| x t IH]; simpl.
  - apply grows_id.
  - apply (grows_compose (fun cards => step cards x) (fun cards => fold_left step t cards)).
    + apply Hstep.
    + exact IH.
Qed.

Lemma grows_ext f g : (forall cards, f cards = g cards) -> grows f -> grows g.
Proof.
  intros E Hf cards H. rewrite <- E. apply Hf. exact H.
Qed.

Variables toFixed1 toLocaleString : Q -> string.
Variable scopeLabel : string.

Lemma grows_pulseCard s : grows (pulseCard toFixed1 toLocaleString scopeLabel s).
Proof. unfold pulseCard. apply grows_pushCard. Qed.

Lemma grows_stabilizeCard s item :
  grows (fun cards => stabilizeCard scopeLabel s cards item).
Proof.
  intros cards H. unfold stabilizeCard.
  destruct (length cards <? MAX_CARDS)%nat.
  - apply grows_pushCard. exact H.
  - apply grows_id. exact H.
Qed.

Lemma grows_complaintCards s complaintList :
  grows (complaintCards toLocaleString scopeLabel s complaintList).
Proof.
  intros cards H. unfold complaintCards.
  destruct complaintList as [| primary rest]; [apply grows_id; exact H |].
  destruct (length cards <? MAX_CARDS)%nat; [| apply grows_id; exact H].
  cbv zeta.
  match goal with
  | |- context [fold_left ?st ?items (pushCard cards ?t ?d)] =>
      apply (grows_compose (fun c => pushCard c t d) (fun c => fold_left st items c))
  end.
  - apply grows_pushCard.
  - apply grows_fold. intro x. apply grows_stabilizeCard.
  - exact H.
Qed.

Lemma grows_redesignCard s item :
  grows (fun cards => redesignCard toFixed1 scopeLabel s cards item).
Proof.
  intros cards H. unfold redesignCard.
  destruct (MAX_CARDS <=? length cards)%nat.
  - apply grows_id. exact H.
  - apply grows_pushCard. exact H.
Qed.

Lemma grows_featureCards bi : grows (featureCards toFixed1 scopeLabel bi).
Proof.
  intros cards H. unfold featureCards.
  destruct (length cards <? MAX_CARDS)%nat; [| apply grows_id; exact H].
  apply (grows_fold (redesignCard toFixed1 scopeLabel (summary bi))); [| exact H].
  intro x. apply grows_redesignCard.
Qed.

Lemma grows_modelCard s bm : grows (modelCard toFixed1 scopeLabel s bm).
Proof.
  intros cards H. unfold modelCard.
  destruct bm as [l |]; [| apply grows_id; exact H].
  destruct (length cards <? MAX_CARDS)%nat; [| apply grows_id; exact H].
  destruct (problematicModel l) as [pm |]; [| apply grows_id; exact H].
  destruct (gtb (negative_pct pm ?? 0) 0); [| apply grows_id; exact H].
  apply grows_pushCard. exact H.
Qed.

Lemma grows_portfolioCard item :
  grows (fun cards => portfolioCard toLocaleString scopeLabel cards item).
Proof. unfold portfolioCard. apply grows_pushCard. Qed.

Lemma grows_fallbackCard text :
  grows (fun cards => fallbackCard scopeLabel cards text).
Proof.
  intros cards H. unfold fallbackCard. apply grows_pushCard. exact H.
Qed.

Lemma grows_monitorCard : grows (monitorCard scopeLabel).
Proof. unfold monitorCard. apply grows_pushCard. Qed.

Lemma brandSourceCards_spec complaints bi brandModels :
  let sourced := brandSourceCards toFixed1 toLocaleString scopeLabel complaints bi brandModels in
  positional sourced
  /\ exists added,
      sourced = pulseCard toFixed1 toLocaleString scopeLabel (summary bi) [] ++ added.
Proof.
  unfold brandSourceCards.
  pose proof (grows_pulseCard (summary bi) [] positional_nil) as [P0 _].
  set (c0 := pulseCard toFixed1 toLocaleString scopeLabel (summary bi) []) in *.
  destruct (grows_complaintCards (summary bi) complaints c0 P0) as [P1 [a1 E1]].
  destruct (grows_featureCards bi _ P1) as [P2 [a2 E2]].
  destruct (grows_modelCard (summary bi) brandModels _ P2) as [P3 [a3 E3]].
  split; [exact P3 |].
  exists (a1 ++ a2 ++ a3). rewrite E3, E2, E1. rewrite <- !app_assoc. reflexivity.
Qed.

Lemma fillCards_spec title description cards :
  positional cards ->
  fillCards title description cards = cards ++ fillers title description (length cards).
Proof.
  funelim (fillCards title description cards); intro P.
  - rewrite H.
    + unfold pushCard.
      destruct (Nat.ltb_spec (length cards) MAX_CARDS) as [Hlt | Hge]; [| lia].
      rewrite length_app, <- app_assoc. f_equal. simpl length.
      unfold fillers. rewrite Nat.add_1_r.
      unfold MAX_CARDS in Hlt.
      destruct (length cards) as [| [| [| n]]]; try reflexivity. lia.
    + apply grows_pushCard. exact P.
  - apply positional_capped in P.
    unfold fillers. rewrite skipn_all2 by (simpl; unfold MAX_CARDS in *; lia).
    symmetry. apply app_nil_r.
Qed.

Lemma fillCards_full title description cards :
  positional cards ->
  positional (fillCards title description cards)
  /\ length (fillCards title description cards) = MAX_CARDS.
Proof.
  intro P. rewrite (fillCards_spec _ _ _ P).
  pose proof (positional_capped _ P) as Hcap. unfold MAX_CARDS in *.
  unfold positional, fillers in *.
  rewrite map_app, length_app, !length_map, length_skipn, map_map. simpl length. simpl map at 2.
  rewrite map_id, P.
  replace (length cards + (3 - length cards))%nat with 3%nat by lia.
  split; [| reflexivity].
  rewrite firstn_skipn. reflexivity.
Qed.

Lemma noBrandCards_spec complaints fallback brandModels :
  let cards := createRecommendationCards toFixed1 toLocaleString scopeLabel
                 complaints fallback None brandModels in
  positional cards /\ cards <> [].
Proof.
  unfold createRecommendationCards. cbv zeta.
  set (cards1 := if negb (isEmpty complaints) then _ else _).
  assert (positional cards1) as P1.
  { subst cards1. destruct (negb (isEmpty complaints)); [| apply positional_nil].
    apply (grows_fold (portfolioCard toLocaleString scopeLabel)); [| apply positional_nil].
    intro x. apply grows_portfolioCard. }
  set (cards2 := if (length cards1 <? 3)%nat && negb (isEmpty fallback) then _ else _).
  assert (positional cards2) as P2.
  { subst cards2. destruct ((length cards1 <? 3)%nat && negb (isEmpty fallback)); [| exact P1].
    apply (grows_fold (fallbackCard scopeLabel)); [| exact P1].
    intro x. apply grows_fallbackCard. }
  destruct cards2 as [| c t] eqn:E2; simpl isEmpty; cbv iota.
  - split; [apply grows_monitorCard; apply positional_nil |].
    unfold monitorCard, pushCard. simpl. discriminate.
  - split; [exact P2 | discriminate].
Qed.

End SupplierFacts.

(** ** BuyerInsights: the card generator *)

Section BuyerFacts.
Import JS Buyer.

Variables toFixed1 toLocaleString numToString : Q -> string.

Lemma length_push {A : Type} (l : list A) (x : A) : length (push l x) = S (length l).
Proof. unfold push. rewrite length_app. simpl. lia. Qed.

Lemma bestModelCards_length selectedBrand best recs :
  (length recs <= length (bestModelCards toFixed1 numToString selectedBrand best recs)
   <= length recs + 2)%nat.
Proof.
  unfold bestModelCards. destruct best as [[i m] |]; [| lia].
  destruct (hd_error (strongest_features m ?? [])); rewrite ?length_push; lia.
Qed.

Lemma brandCards_length selectedBrand inScope brandSegment recs :
  (length recs
   <= length (brandCards toLocaleString numToString selectedBrand inScope brandSegment recs)
   <= length recs + 1)%nat.
Proof.
  unfold brandCards. destruct (String.eqb selectedBrand "all").
  - destruct (hd_error inScope); rewrite ?length_push; lia.
  - cbv zeta.
    repeat match goal with
           | |- context [match ?x with _ => _ end] => destruct x
           end; rewrite ?length_push; lia.
Qed.

Lemma otherModelCards_length other recs :
  (length recs <= length (otherModelCards numToString other recs) <= length recs + 1)%nat.
Proof.
  unfold otherModelCards. destruct other as [[i m] |]; rewrite ?length_push; lia.
Qed.

Lemma generateBuyerRecommendations_length dataset selectedBrand brandSegment :
  (1 <= length (generateBuyerRecommendations toFixed1 toLocaleString numToString
                  dataset selectedBrand brandSegment) <= 4)%nat.
Proof.
  unfold generateBuyerRecommendations. cbv zeta.
  set (pool := scopedModels dataset selectedBrand).
  set (best := bestModel pool brandSegment).
  pose proof (bestModelCards_length selectedBrand best []) as H1.
  set (r1 := bestModelCards toFixed1 numToString selectedBrand best []) in *.
  pose proof (brandCards_length selectedBrand (scopedBrands dataset selectedBrand)
                                brandSegment r1) as H2.
  set (r2 := brandCards _ _ _ _ _ r1) in *.
  pose proof (otherModelCards_length (otherModel pool brandSegment best) r2) as H3.
  set (r3 := otherModelCards _ _ r2) in *.
  change 4%Z with (Z.of_nat 4). rewrite slice_from_0, length_firstn.
  simpl length in H1.
  destruct r3 as [| c t] eqn:E; simpl isEmpty; cbv iota.
  - rewrite length_push. simpl. lia.
  - simpl length in *. lia.
Qed.

End BuyerFacts.

(** A brand scope with a summary, no complaints and no feature sentiments:
    the sentiment-pulse card and two filler cards. *)
Example bare_brand_cards :
  map Supplier.title
      (Supplier.createRecommendationCards Samples.blank Samples.blank "Acme"
         [] [] (Some Samples.bareInsight) None)
  = [ "Acme: Sentiment pulse"; "Acme: Customer delight initiative";
      "Acme: Customer delight initiative" ]%string.
Proof. vm_compute. reflexivity. Qed.

(** C1. Both card generators return at least one card and at most their
    cap, three for the supplier page and four for the buyer page, whatever
    they are given; and with no source to draw on, each returns exactly its
    generic card. *)
Theorem generators_never_empty :
  (forall toFixed1 toLocaleString scopeLabel complaints fallback brandInsight brandModels,
      let cards := Supplier.createRecommendationCards toFixed1 toLocaleString scopeLabel
                     complaints fallback brandInsight brandModels in
      (1 <= length cards <= Supplier.MAX_CARDS)%nat)
  /\ (forall toFixed1 toLocaleString numToString dataset selectedBrand brandSegment,
         let recs := Buyer.generateBuyerRecommendations toFixed1 toLocaleString numToString
                       dataset selectedBrand brandSegment in
         (1 <= length recs <= 4)%nat)
  /\ (forall toFixed1 toLocaleString scopeLabel brandModels,
         Supplier.createRecommendationCards toFixed1 toLocaleString scopeLabel
           [] [] None brandModels
         = Supplier.monitorCard scopeLabel [])
  /\ (forall toFixed1 toLocaleString numToString brandSegment,
         Buyer.generateBuyerRecommendations toFixed1 toLocaleString numToString
           {| Buyer.brand_analysis := Some []; Buyer.model_analysis := Some [] |}
           "all" brandSegment
         = [Buyer.monitorCard]).
Proof.
  split; [| split; [| split]].
  - intros toFixed1 toLocaleString scopeLabel complaints fallback brandInsight brandModels cards.
    assert (CardInvariants.positional cards /\ cards <> []) as [P N].
    { destruct brandInsight as [bi |].
      - subst cards. unfold Supplier.createRecommendationCards.
        destruct (brandSourceCards_spec toFixed1 toLocaleString scopeLabel
                    complaints bi brandModels) as [P _].
        destruct (fillCards_full (Supplier.delightTitle (Supplier.summary bi))
                    (Supplier.delightDescription scopeLabel) _ P) as [P' L].
        split; [exact P' |]. intro E. rewrite E in L. discriminate.
      - apply noBrandCards_spec. }
    apply positional_capped in P.
    split; [| exact P].
    destruct cards; [congruence | simpl; lia].
  - intros. apply generateBuyerRecommendations_length.
  - intros. reflexivity.
  - intros toFixed1 toLocaleString numToString brandSegment.
    unfold Buyer.generateBuyerRecommendations, Buyer.scopedModels, Buyer.scopedBrands,
      Buyer.bestModel, Buyer.otherModel. simpl.
    destruct (Buyer.leaderboard brandSegment) as [| candidate others]; reflexivity.
Qed.

(** C9. In every output of the supplier generator the tier of a card is the
    tier of its position: the tiers of the cards, in order, are Critical,
    High, Medium cut to the number of cards. *)
Theorem priority_follows_position
        (toFixed1 toLocaleString : Q -> string) (scopeLabel : string)
        (complaints : list Supplier.ComplaintEntry) (fallback : list string)
        (brandInsight : option Supplier.SupplierBrandInsight)
        (brandModels : option (list Supplier.ModelBreakdownEntry)) :
  let cards := Supplier.createRecommendationCards toFixed1 toLocaleString scopeLabel
                 complaints fallback brandInsight brandModels in
  map Supplier.priority cards
  = firstn (length cards) [Supplier.Critical; Supplier.High; Supplier.Medium].
Proof.
  intro cards. change (CardInvariants.positional cards).
  destruct brandInsight as [bi |].
  - subst cards. unfold Supplier.createRecommendationCards.
    destruct (brandSourceCards_spec toFixed1 toLocaleString scopeLabel
                complaints bi brandModels) as [P _].
    apply fillCards_full. exact P.
  - apply noBrandCards_spec.
Qed.

(** C10. With brand-level detail the supplier generator returns exactly
    three cards: the sentiment-pulse card comes first, the cards drawn from
    the complaint, feature-sentiment and model sources follow, and every
    slot they leave free holds the customer-delight filler card. *)
Theorem brand_detail_fills_three
        (toFixed1 toLocaleString : Q -> string) (scopeLabel : string)
        (complaints : list Supplier.ComplaintEntry) (fallback : list string)
        (bi : Supplier.SupplierBrandInsight)
        (brandModels : option (list Supplier.ModelBreakdownEntry)) :
  let cards := Supplier.createRecommendationCards toFixed1 toLocaleString scopeLabel
                 complaints fallback (Some bi) brandModels in
  let sourced := Supplier.brandSourceCards toFixed1 toLocaleString scopeLabel
                   complaints bi brandModels in
  length cards = 3%nat
  /\ firstn 1 cards = Supplier.pulseCard toFixed1 toLocaleString scopeLabel (Supplier.summary bi) []
  /\ option_map Supplier.title (hd_error cards)
     = Some (Supplier.s_brand (Supplier.summary bi) +++ ": Sentiment pulse")%string
  /\ (1 <= length sourced <= 3)%nat
  /\ cards = sourced ++ CardInvariants.fillers
                          (Supplier.s_brand (Supplier.summary bi) +++ ": Customer delight initiative")%string
                          (Supplier.delightDescription scopeLabel)
                          (length sourced).
Proof.
  intros cards sourced.
  destruct (brandSourceCards_spec toFixed1 toLocaleString scopeLabel
              complaints bi brandModels) as [P [added E]].
  fold sourced in P, E.
  assert (cards = sourced ++ CardInvariants.fillers
                    (Supplier.delightTitle (Supplier.summary bi))
                    (Supplier.delightDescription scopeLabel) (length sourced)) as Ec.
  { subst cards. unfold Supplier.createRecommendationCards.
    fold sourced. apply fillCards_spec. exact P. }
  assert (length cards = 3%nat) as L.
  { subst cards. unfold Supplier.createRecommendationCards. fold sourced.
    apply fillCards_full. exact P. }
  assert (exists rest, cards = Supplier.pulseCard toFixed1 toLocaleString scopeLabel
                                 (Supplier.summary bi) [] ++ rest) as [rest Er].
  { exists (added ++ CardInvariants.fillers
              (Supplier.delightTitle (Supplier.summary bi))
              (Supplier.delightDescription scopeLabel) (length sourced)).
    rewrite Ec, E. symmetry. apply app_assoc. }
  repeat split.
  - exact L.
  - rewrite Er. reflexivity.
  - rewrite Er. reflexivity.
  - rewrite E. simpl. lia.
  - apply positional_capped in P. exact P.
  - exact Ec.
Qed.

(** ** ModelAdvisor: feature averages *)

Section FeatureFacts.
Import JS ModelAdvisor.

Lemma gtb_zero_nonzero r : gtb r 0 = true -> 0 < r /\ Qeq_bool r 0 = false.
Proof.
  intro H. apply gtb_true in H. split; [exact H |].
  destruct (Qeq_bool r 0) eqn:E; [| reflexivity].
  apply Qeq_bool_iff in E. rewrite E in H. exfalso. apply (Qlt_irrefl _ H).
Qed.

(** Below [10^21] the rounding picks a multiple of [1/100] no farther than
    half a hundredth away. *)
Lemma toFixed2_magnitude ax :
  0 <= ax ->
  let m := if leb (1000000000000000000000 # 1) ax then ax
           else inject_Z (Qfloor (ax * 100 + (1 # 2))) / 100 in
  Qabs (m - ax) <= 1 # 200.
Proof.
  intros Hpos m. subst m.
  destruct (leb (1000000000000000000000 # 1) ax).
  - setoid_replace (ax - ax) with 0 by ring. discriminate.
  - pose proof (Qfloor_le (ax * 100 + (1 # 2))) as Hlo.
    pose proof (Qlt_floor (ax * 100 + (1 # 2))) as Hhi.
    rewrite inject_Z_plus in Hhi.
    set (n := inject_Z (Qfloor (ax * 100 + (1 # 2)))) in *.
    change (inject_Z 1) with 1 in Hhi.
    apply Qabs_Qle_condition.
    setoid_replace (n / 100 - ax) with ((n - ax * 100) * (1 # 100)) by field.
    split; lra.
Qed.

Lemma toFixed2_near x : Qabs (toFixed2 x - x) <= 1 # 200.
Proof.
  unfold toFixed2. cbv zeta.
  destruct (gtb 0 x) eqn:G.
  - apply gtb_true in G.
    assert (0 <= - x) as Hpos by lra.
    pose proof (toFixed2_magnitude (- x) Hpos) as H. cbv zeta in H.
    set (m := if leb _ (- x) then _ else _) in *.
    setoid_replace (- m - x) with (- (m - - x)) by ring.
    rewrite Qabs_opp. exact H.
  - apply gtb_false in G.
    apply (toFixed2_magnitude x G).
Qed.

Lemma featureEntry_feature pool key label :
  feature (featureEntry pool (key, label)) = label.
Proof. reflexivity. Qed.

Lemma featureEntry_kept pool key label :
  gtb (rating (featureEntry pool (key, label))) 0 = true ->
  featureValues key pool <> []
  /\ rating (featureEntry pool (key, label)) = toFixed2 (mean (featureValues key pool)).
Proof.
  unfold featureEntry. cbv zeta.
  destruct (featureValues key pool) as [| v t]; simpl isEmpty; cbv iota; simpl rating.
  - intro H. discriminate.
  - intros _. split; [discriminate | reflexivity].
Qed.

Lemma metric_labels_distinct key key' label :
  In (key, label) metrics -> In (key', label) metrics -> key = key'.
Proof.
  unfold metrics. simpl. intros H H'.
  destruct H as [H | [H | [H | [H | []]]]];
    destruct H' as [H' | [H' | [H' | [H' | []]]]];
    inversion H; inversion H'; subst; try reflexivity; discriminate.
Qed.

End FeatureFacts.

(** C8. No entry of the feature series has rating 0: every entry is positive;
    each is the mean of the values measured for its feature across the pool,
    at least one of them, rounded to hundredths; and a feature with no
    measured value, or whose rounded mean is not positive, has no entry. *)
Theorem feature_series_never_zero (pool : list ModelAdvisor.ModelAdvisorModel) :
  let series := ModelAdvisor.averageFeatureSeries pool in
  Forall (fun e => 0 < ModelAdvisor.rating e /\ Qeq_bool (ModelAdvisor.rating e) 0 = false) series
  /\ Forall (fun e =>
               exists key,
                 In (key, ModelAdvisor.feature e) ModelAdvisor.metrics
                 /\ ModelAdvisor.featureValues key pool <> []
                 /\ ModelAdvisor.rating e
                    = JS.toFixed2 (ModelAdvisor.mean (ModelAdvisor.featureValues key pool))
                 /\ Qabs (ModelAdvisor.rating e
                          - ModelAdvisor.mean (ModelAdvisor.featureValues key pool)) <= 1 # 200)
            series
  /\ (forall key label,
         In (key, label) ModelAdvisor.metrics ->
         ModelAdvisor.featureValues key pool = []
         \/ JS.toFixed2 (ModelAdvisor.mean (ModelAdvisor.featureValues key pool)) <= 0 ->
         ~ In label (map ModelAdvisor.feature series)).
Proof.
  intro series.
  assert (forall e, In e series ->
            exists key, In (key, ModelAdvisor.feature e) ModelAdvisor.metrics
                        /\ e = ModelAdvisor.featureEntry pool (key, ModelAdvisor.feature e)
                        /\ JS.gtb (ModelAdvisor.rating e) 0 = true) as Hsrc.
  { intros e Hin. subst series. unfold ModelAdvisor.averageFeatureSeries in Hin.
    apply filter_In in Hin. destruct Hin as [Hin Hpos].
    apply in_map_iff in Hin. destruct Hin as [[key label] [E Hm]].
    exists key. subst e. rewrite featureEntry_feature. auto. }
  split; [| split].
  - apply Forall_forall. intros e Hin.
    destruct (Hsrc e Hin) as [key [_ [_ Hpos]]].
    apply gtb_zero_nonzero. exact Hpos.
  - apply Forall_forall. intros e Hin.
    destruct (Hsrc e Hin) as [key [Hm [E Hpos]]].
    exists key. rewrite E in Hpos.
    destruct (featureEntry_kept pool key _ Hpos) as [Hne Hr].
    rewrite <- E in Hr.
    repeat split; try assumption.
    rewrite Hr. apply toFixed2_near.
  - intros key label Hm Hdrop Hin.
    apply in_map_iff in Hin. destruct Hin as [e [El Hin]].
    destruct (Hsrc e Hin) as [key' [Hm' [E Hpos]]].
    rewrite El in Hm', E.
    assert (key = key') as <- by (eapply metric_labels_distinct; eassumption).
    rewrite E in Hpos.
    destruct (featureEntry_kept pool key label Hpos) as [Hne Hr].
    destruct Hdrop as [Hnil | Hle]; [contradiction |].
    rewrite Hr in Hpos. apply gtb_true in Hpos.
    apply (Qlt_not_le _ _ Hpos Hle).
Qed.

(** C8, at a pool of one phone with a camera rating of 4.5, a display
    rating of 0 and no battery rating. *)
Lemma feature_series_never_zero_witness :
  ModelAdvisor.averageFeatureSeries [Samples.cheaper]
  = [ {| ModelAdvisor.feature := "Camera"; ModelAdvisor.rating := 450 # 100 |} ]
  /\ ~ In "Battery"%string
       (map ModelAdvisor.feature (ModelAdvisor.averageFeatureSeries [Samples.cheaper]))
  /\ ~ In "Display"%string
       (map ModelAdvisor.feature (ModelAdvisor.averageFeatureSeries [Samples.cheaper])).
Proof.
  split; [vm_compute; reflexivity |].
  destruct (feature_series_never_zero [Samples.cheaper]) as [_ [_ H]].
  split.
  - apply (H ModelAdvisor.avg_battery_rating).
    + simpl. auto.
    + left. reflexivity.
  - apply (H ModelAdvisor.avg_display_rating).
    + simpl. auto.
    + right. vm_compute. discriminate.
Defined.

(** ** ModelAdvisor: the tie-break cascade *)

Section CascadeFacts.
Import JS ModelAdvisor.

Lemma not_gtb_of_le x y : x <= y -> gtb x y = false.
Proof. intro H. apply gtb_false. exact H. Qed.

Lemma compareModels_rating_decides budget a b :
  epsilon < Qabs ((avg_rating b ?? 0) - (avg_rating a ?? 0)) ->
  compareModels budget a b
  = if gtb ((avg_rating b ?? 0) - (avg_rating a ?? 0)) 0 then 1 else -1.
Proof.
  intro H. unfold compareModels. cbv zeta. unfold Math_abs.
  rewrite (proj2 (gtb_true _ _) H). reflexivity.
Qed.

Lemma compareModels_distance_decides bd a b :
  0 < bd ->
  Qabs ((avg_rating b ?? 0) - (avg_rating a ?? 0)) <= epsilon ->
  epsilon < Qabs (Qabs ((avg_price_usd a ?? bd) - bd) - Qabs ((avg_price_usd b ?? bd) - bd)) ->
  compareModels (Some bd) a b
  = Qabs ((avg_price_usd a ?? bd) - bd) - Qabs ((avg_price_usd b ?? bd) - bd).
Proof.
  intros Hb Hr Hd. unfold compareModels. cbv zeta. unfold Math_abs.
  rewrite (not_gtb_of_le _ _ Hr), (positive_truthy bd Hb).
  rewrite (proj2 (gtb_true _ _) Hd). reflexivity.
Qed.

Lemma compareModels_price_decides budget a b :
  Qabs ((avg_rating b ?? 0) - (avg_rating a ?? 0)) <= epsilon ->
  (forall bd, budget = Some bd ->
     Qabs (Qabs ((avg_price_usd a ?? bd) - bd) - Qabs ((avg_price_usd b ?? bd) - bd))
     <= epsilon) ->
  compareModels budget a b
  = (avg_price_usd a ?? MAX_SAFE_INTEGER) - (avg_price_usd b ?? MAX_SAFE_INTEGER).
Proof.
  intros Hr Hd. unfold compareModels. cbv zeta. unfold Math_abs.
  rewrite (not_gtb_of_le _ _ Hr).
  destruct budget as [bd |]; [| reflexivity].
  destruct (truthy bd); [| reflexivity].
  rewrite (not_gtb_of_le _ _ (Hd bd eq_refl)). reflexivity.
Qed.

End CascadeFacts.

(** C3, as stated, fails: two candidates rated alike whose prices differ by
    [2^-21], which is below [1e-6], are reordered by the price key, with and
    without a budget. *)
Lemma near_equal_prices_reordered :
  ModelAdvisor.avg_rating Samples.dearer = ModelAdvisor.avg_rating Samples.cheaper
  /\ Qabs ((209715201 # 2097152) - 100) <= ModelAdvisor.epsilon
  /\ ModelAdvisor.candidatePool
       (ModelAdvisor.shortlist (Some (Samples.snapshot [Samples.dearer; Samples.cheaper]))
                               None "all")
     = [Samples.cheaper; Samples.dearer]
  /\ ModelAdvisor.candidatePool
       (ModelAdvisor.shortlist (Some (Samples.snapshot [Samples.dearer; Samples.cheaper]))
                               (ModelAdvisor.budgetValue (Some 100)) "all")
     = [Samples.cheaper; Samples.dearer].
Proof.
  split; [reflexivity |].
  split; [vm_compute; discriminate |].
  split; vm_compute; reflexivity.
Qed.

(** C3, amended. The rating key and, with a budget, the distance key decide
    only beyond a difference of [1e-6]; when both leave a pair tied the
    comparator is the exact price difference, so any difference in price,
    however small, puts the cheaper candidate first. *)
Theorem cascade_ends_on_exact_price
        (parsed : option Q) (a b : ModelAdvisor.ModelAdvisorModel) :
  let budget := ModelAdvisor.budgetValue parsed in
  let rating m := ModelAdvisor.avg_rating m ?? 0 in
  let distance bd m := Qabs ((ModelAdvisor.avg_price_usd m ?? bd) - bd) in
  let price m := ModelAdvisor.avg_price_usd m ?? JS.MAX_SAFE_INTEGER in
  (ModelAdvisor.epsilon < Qabs (rating b - rating a) ->
   ModelAdvisor.compareModels budget a b = if JS.gtb (rating b - rating a) 0 then 1 else -1)
  /\ (forall bd, budget = Some bd ->
        Qabs (rating b - rating a) <= ModelAdvisor.epsilon ->
        ModelAdvisor.epsilon < Qabs (distance bd a - distance bd b) ->
        ModelAdvisor.compareModels budget a b = distance bd a - distance bd b)
  /\ (Qabs (rating b - rating a) <= ModelAdvisor.epsilon ->
      (forall bd, budget = Some bd ->
         Qabs (distance bd a - distance bd b) <= ModelAdvisor.epsilon) ->
      ModelAdvisor.compareModels budget a b = price a - price b
      /\ (price a < price b ->
          JS.sort (ModelAdvisor.compareModels budget) [b; a] = [a; b])
      /\ (price b <= price a ->
          JS.sort (ModelAdvisor.compareModels budget) [b; a] = [b; a])).
Proof.
  intros budget rating distance price.
  split; [| split].
  - apply compareModels_rating_decides.
  - intros bd Hb Hr Hd. rewrite Hb.
    apply compareModels_distance_decides; try assumption.
    apply (budgetValue_positive parsed). exact Hb.
  - intros Hr Hd.
    assert (ModelAdvisor.compareModels budget b a = price b - price a) as Eba.
    { apply compareModels_price_decides.
      - rewrite <- Qabs_opp.
        setoid_replace (- (ModelAdvisor.avg_rating a ?? 0 - ModelAdvisor.avg_rating b ?? 0))
          with (rating b - rating a) by (unfold rating; ring).
        exact Hr.
      - intros bd Hb. rewrite <- Qabs_opp.
        setoid_replace
          (- (Qabs (ModelAdvisor.avg_price_usd b ?? bd - bd)
              - Qabs (ModelAdvisor.avg_price_usd a ?? bd - bd)))
          with (distance bd a - distance bd b) by (unfold distance; ring).
        apply Hd. exact Hb. }
    split; [apply compareModels_price_decides; assumption |].
    split; intro Hp; simpl; rewrite Eba.
    + assert (JS.gtb (price b - price a) 0 = true) as ->
          by (apply gtb_true; lra).
      reflexivity.
    + assert (JS.gtb (price b - price a) 0 = false) as ->
          by (apply gtb_false; lra).
      reflexivity.
Qed.

(** C3, amended, at the two sample phones without a budget. *)
Lemma cascade_ends_on_exact_price_witness :
  ModelAdvisor.compareModels None Samples.cheaper Samples.dearer
  = 100 - (209715201 # 2097152)
  /\ JS.sort (ModelAdvisor.compareModels None) [Samples.dearer; Samples.cheaper]
     = [Samples.cheaper; Samples.dearer].
Proof.
  destruct (cascade_ends_on_exact_price None Samples.cheaper Samples.dearer) as [_ [_ H]].
  destruct H as [E [S _]].
  - vm_compute. discriminate.
  - intros bd Hb. discriminate Hb.
  - split; [exact E |]. apply S. vm_compute. reflexivity.
Defined.

(** ** BuyerInsights: an absent rating in the best-model score *)

Section ScoreFacts.
Import JS Buyer ZeroRating.

Lemma insert_map {A B : Type} (f : A -> B) (cmpA : A -> A -> Q) (cmpB : B -> B -> Q) :
  (forall x y, cmpB (f x) (f y) = cmpA x y) ->
  forall x l, insert cmpB (f x) (map f l) = map f (insert cmpA x l).
Proof.
  intros Hc x l. induction l as [| y t IH]; simpl.
  - reflexivity.
  - rewrite Hc. destruct (gtb (cmpA x y) 0); simpl; [rewrite IH |]; reflexivity.
Qed.

Lemma sort_map {A B : Type} (f : A -> B) (cmpA : A -> A -> Q) (cmpB : B -> B -> Q) :
  (forall x y, cmpB (f x) (f y) = cmpA x y) ->
  forall l, sort cmpB (map f l) = map f (sort cmpA l).
Proof.
  intros Hc l. induction l as [| x t IH]; simpl.
  - reflexivity.
  - rewrite IH. apply insert_map. exact Hc.
Qed.

Lemma find_map {A B : Type} (f : A -> B) (p : B -> bool) (q : A -> bool) :
  (forall x, p (f x) = q x) ->
  forall l, find p (map f l) = option_map f (find q l).
Proof.
  intros Hp l. induction l as [| x t IH]; simpl.
  - reflexivity.
  - rewrite Hp. destruct (q x); [reflexivity | exact IH].
Qed.

Lemma hd_error_map {A B : Type} (f : A -> B) l :
  hd_error (map f l) = option_map f (hd_error l).
Proof. destruct l; reflexivity. Qed.

Lemma score_measuredZero m : score (measuredZero m) = score m.
Proof. reflexivity. Qed.

Lemma bestModel_measuredZero pool brandSegment :
  bestModel (map measuredZeroRef pool) brandSegment
  = option_map measuredZeroRef (bestModel pool brandSegment).
Proof.
  unfold bestModel.
  rewrite (sort_map measuredZeroRef compareScore compareScore) by reflexivity.
  rewrite hd_error_map.
  destruct (hd_error (sort compareScore pool)) as [m |]; [reflexivity |].
  simpl option_map at 1. cbv iota.
  destruct (leaderboard brandSegment) as [| candidate others]; [reflexivity |].
  apply find_map. intros [i m]. reflexivity.
Qed.

End ScoreFacts.

(** C4, as stated, fails: the unrated sample model scores exactly what it
    would score with a measured rating of 0, and so loses the top pick to a
    model with a lower positive share, just as its zero-rated copy does. *)
Lemma absent_rating_counted_as_zero :
  Buyer.avg_rating Samples.unrated = None
  /\ Buyer.score Samples.unrated = Buyer.score (ZeroRating.measuredZero Samples.unrated)
  /\ Buyer.bestModel
       (Buyer.scopedModels (Samples.buyerDataset [Samples.unrated; Samples.rated]) "all") None
     = Some (1%nat, Samples.rated)
  /\ Buyer.bestModel
       (Buyer.scopedModels
          (Samples.buyerDataset [ZeroRating.measuredZero Samples.unrated; Samples.rated]) "all")
       None
     = Some (1%nat, Samples.rated).
Proof.
  repeat split; vm_compute; reflexivity.
Qed.

(** C4, amended. The buyer page scores a model by
    [(positive_pct ?? 0) + (avg_rating ?? 0)]: replacing every absent rating
    by a measured 0 changes neither a score nor the model selected as best.
    The model advisor never compares a candidate with an absent price or
    rating, because its ranker is handed complete candidates only. *)
Theorem absent_rating_scores_zero :
  (forall m, Buyer.score (ZeroRating.measuredZero m) = Buyer.score m)
  /\ (forall pool brandSegment,
         Buyer.bestModel (map ZeroRating.measuredZeroRef pool) brandSegment
         = option_map ZeroRating.measuredZeroRef (Buyer.bestModel pool brandSegment))
  /\ (forall parsed pool,
         Forall Spec.complete (ModelAdvisor.withPriceAndRating pool)
         /\ Forall Spec.complete
                   (ModelAdvisor.workingSet (ModelAdvisor.budgetValue parsed)
                                            (ModelAdvisor.withPriceAndRating pool))).
Proof.
  split; [| split].
  - apply score_measuredZero.
  - apply bestModel_measuredZero.
  - intros parsed pool. split.
    + apply withPriceAndRating_complete.
    + apply workingSet_subset, withPriceAndRating_complete.
Qed.

(** ** A scope brand that the snapshot does not have *)

Section ScopeFacts.
Import JS.

Lemma normalizeBudgetBrand_absent options brand :
  includes options brand = false ->
  ModelAdvisor.normalizeBudgetBrand options brand = "all"%string.
Proof.
  intro H. unfold ModelAdvisor.normalizeBudgetBrand.
  destruct (isEmpty options); [reflexivity |].
  rewrite H. simpl.
  destruct (String.eqb_spec brand "all") as [E | N]; [exact E | reflexivity].
Qed.

Lemma normalizeSelectedBrand_absent options brand :
  includes options brand = false ->
  Supplier.normalizeSelectedBrand options brand = "all"%string.
Proof.
  intro H. unfold Supplier.normalizeSelectedBrand.
  rewrite H. simpl.
  destruct (String.eqb_spec brand "all") as [E | N]; [exact E | reflexivity].
Qed.

Lemma shortlist_unknown_brand d budget brand :
  String.eqb brand "all" = false ->
  filter (fun m => String.eqb (ModelAdvisor.brand m) brand) (ModelAdvisor.models d) = [] ->
  ModelAdvisor.shortlist (Some d) budget brand = ModelAdvisor.noShortlist.
Proof.
  intros Hb Hf. unfold ModelAdvisor.shortlist, ModelAdvisor.scopedPool.
  destruct (isEmpty (ModelAdvisor.models d)); [reflexivity |].
  rewrite Hb. simpl negb. cbv iota. rewrite Hf. reflexivity.
Qed.

End ScopeFacts.

(** C5, as stated, fails: for a brand that the snapshot does not have, the
    shortlist computation returns empty lists where the unscoped one returns
    the pool, and the supplier generator returns the portfolio card alone
    where the unscoped one also turns the free-text recommendation into a
    card; the same happens, with no reset, for a listed brand that has no
    brand-level detail. *)
Lemma unknown_brand_is_not_aggregate :
  JS.includes (ModelAdvisor.brandOptions (Some (Samples.snapshot [Samples.cheaper]))) "Zeta" = false
  /\ ModelAdvisor.shortlist (Some (Samples.snapshot [Samples.cheaper])) None "Zeta"
     = ModelAdvisor.noShortlist
  /\ ModelAdvisor.candidatePool
       (ModelAdvisor.shortlist (Some (Samples.snapshot [Samples.cheaper])) None "all")
     = [Samples.cheaper]
  /\ JS.includes (Supplier.brandOptions Samples.supplierDataset) "Zeta" = false
  /\ Supplier.cardTitles
       (Supplier.recommendationCards Samples.blank Samples.blank Samples.supplierDataset "Zeta")
     = Some ["Portfolio: Fix battery"%string]
  /\ Supplier.cardTitles
       (Supplier.recommendationCards Samples.blank Samples.blank Samples.supplierDataset "all")
     = Some ["Portfolio: Fix battery"%string; "Recommendation 2"%string]
  /\ Supplier.normalizeSelectedBrand (Supplier.brandOptions Samples.supplierDataset) "Acme"
     = "Acme"%string
  /\ Supplier.brandInsight Samples.supplierDataset "Acme" = JS.Absent
  /\ Supplier.cardTitles
       (Supplier.recommendationCards Samples.blank Samples.blank Samples.supplierDataset "Acme")
     = Some ["Portfolio: Fix battery"%string].
Proof.
  repeat split; vm_compute; reflexivity.
Qed.

(** ** Sorting with a consistent comparator *)

Section SortFacts.
Import JS.
Context {A : Type} (cmp : A -> A -> Q).

(** [a] may stand before [b]. *)
Let before (a b : A) : Prop := cmp a b <= 0.

Hypothesis cmp_trans : forall a b c, cmp a b <= 0 -> cmp b c <= 0 -> cmp a c <= 0.
Hypothesis cmp_total : forall a b, 0 < cmp a b -> cmp b a <= 0.

Lemma insert_sorted x l :
  StronglySorted before l -> StronglySorted before (insert cmp x l).
Proof.
  induction 1 as [| y t Ht IH Hy]; simpl.
  - constructor; constructor.
  - destruct (gtb (cmp x y) 0) eqn:G.
    + apply gtb_true in G. constructor; [exact IH |].
      apply Forall_forall. intros z Hz.
      apply (Permutation_in _ (insert_perm cmp x t)) in Hz.
      destruct Hz as [<- | Hz].
      * apply cmp_total. exact G.
      * eapply Forall_forall in Hy; [exact Hy | exact Hz].
    + apply gtb_false in G. constructor.
      * constructor; assumption.
      * constructor; [exact G |].
        apply Forall_forall. intros z Hz.
        eapply Forall_forall in Hy; [| exact Hz].
        apply (cmp_trans x y z); assumption.
Qed.

Lemma sort_sorted l : StronglySorted before (sort cmp l).
Proof.
  induction l as [| x t IH]; simpl.
  - constructor.
  - apply insert_sorted. exact IH.
Qed.

Lemma sort_head_first l h :
  hd_error (sort cmp l) = Some h ->
  In h l /\ forall x, In x l -> cmp h x <= 0 \/ x = h.
Proof.
  intro H. pose proof (sort_sorted l) as S. pose proof (sort_perm cmp l) as P.
  destruct (sort cmp l) as [| h' rest] eqn:E; [discriminate |].
  injection H as ->. split.
  - apply (Permutation_in _ P). left. reflexivity.
  - intros x Hx. apply (Permutation_in _ (Permutation_sym P)) in Hx.
    inversion S as [| ? ? _ Hall]; subst.
    destruct Hx as [-> | Hx]; [right; reflexivity | left].
    eapply Forall_forall in Hall; [exact Hall | exact Hx].
Qed.

End SortFacts.

Section StableFacts.
Import JS.
Context {A : Type} (cmp : A -> A -> Q) (same : A -> bool).

Hypothesis same_tied : forall x y, same x = true -> same y = true -> cmp x y <= 0.

Lemma insert_stable x l :
  filter same (insert cmp x l) = filter same (x :: l).
Proof.
  induction l as [| y t IH]; [reflexivity |].
  simpl insert. destruct (gtb (cmp x y) 0) eqn:G; [| reflexivity].
  apply gtb_true in G.
  simpl filter in *. rewrite IH.
  destruct (same x) eqn:Sx; destruct (same y) eqn:Sy; try reflexivity.
  exfalso. apply (Qlt_not_le _ _ G). apply same_tied; assumption.
Qed.

Lemma sort_stable l : filter same (sort cmp l) = filter same l.
Proof.
  induction l as [| x t IH]; [reflexivity |].
  simpl sort. rewrite insert_stable. simpl. rewrite IH. reflexivity.
Qed.

End StableFacts.

(** ** BuyerInsights: which models the cards name *)

Section BuyerSelection.
Import JS Buyer.

Lemma compareScore_trans a b c :
  compareScore a b <= 0 -> compareScore b c <= 0 -> compareScore a c <= 0.
Proof. unfold compareScore. cbv zeta. lra. Qed.

Lemma compareScore_total a b : 0 < compareScore a b -> compareScore b a <= 0.
Proof. unfold compareScore. cbv zeta. lra. Qed.

Lemma comparePositive_trans a b c :
  comparePositive a b <= 0 -> comparePositive b c <= 0 -> comparePositive a c <= 0.
Proof. unfold comparePositive. lra. Qed.

Lemma comparePositive_total a b : 0 < comparePositive a b -> comparePositive b a <= 0.
Proof. unfold comparePositive. lra. Qed.

(** The leaderboard is consulted only when the scope has no model, and then
    there is nothing to match an entry against. *)
Lemma bestModel_head pool brandSegment :
  bestModel pool brandSegment = hd_error (sort compareScore pool).
Proof.
  unfold bestModel.
  destruct (hd_error (sort compareScore pool)) as [m |] eqn:E; [reflexivity |].
  assert (pool = []) as ->.
  { apply (sort_nil_iff compareScore). destruct (sort compareScore pool); [reflexivity | discriminate]. }
  destruct (leaderboard brandSegment); reflexivity.
Qed.

Lemma map_fst_refs {A : Type} (l : list A) : map fst (refs l) = seq 0 (length l).
Proof.
  unfold refs. generalize 0%nat. induction l as [| x t IH]; intro n; simpl.
  - reflexivity.
  - rewrite IH. reflexivity.
Qed.

Lemma NoDup_map_fst_filter {A : Type} (f : nat * A -> bool) l :
  NoDup (map fst l) -> NoDup (map fst (filter f l)).
Proof.
  induction l as [| x t IH]; simpl; intro H; [constructor |].
  inversion H as [| ? ? Hnot Hnd]; subst.
  destruct (f x); simpl; [| apply IH; exact Hnd].
  constructor; [| apply IH; exact Hnd].
  intro Hin. apply Hnot.
  apply in_map_iff in Hin. destruct Hin as [y [Ey Hy]].
  apply filter_In in Hy. apply in_map_iff. exists y. tauto.
Qed.

Lemma scopedModels_ids dataset selectedBrand :
  NoDup (map fst (scopedModels dataset selectedBrand)).
Proof.
  unfold scopedModels. cbv zeta.
  assert (NoDup (map fst (refs (model_analysis dataset ?? [])))) as H
      by (rewrite map_fst_refs; apply seq_NoDup).
  destruct (String.eqb selectedBrand "all"); [exact H |].
  apply NoDup_map_fst_filter. exact H.
Qed.

Lemma same_id_same_object {A : Type} (l : list (nat * A)) x y :
  NoDup (map fst l) -> In x l -> In y l -> fst x = fst y -> x = y.
Proof.
  induction l as [| z t IH]; simpl; intros Hnd Hx Hy E; [contradiction |].
  inversion Hnd as [| ? ? Hnot Hnd']; subst.
  destruct Hx as [-> | Hx]; destruct Hy as [-> | Hy].
  - reflexivity.
  - exfalso. apply Hnot. rewrite E. apply in_map. exact Hy.
  - exfalso. apply Hnot. rewrite <- E. apply in_map. exact Hx.
  - apply IH; assumption.
Qed.

Lemma filter_nil_all {A : Type} (f : A -> bool) l :
  filter f l = [] -> forall x, In x l -> f x = false.
Proof.
  intros H x Hx. destruct (f x) eqn:E; [| reflexivity].
  assert (In x (filter f l)) as Hin by (apply filter_In; auto).
  rewrite H in Hin. contradiction.
Qed.

(** With distinct objects in scope, the leaderboard cannot supply a
    secondary option either: it is consulted only when the scope holds the
    best model alone, and an entry that differs from the best model matches
    nothing there. *)
Lemma otherModel_head pool brandSegment best :
  NoDup (map fst pool) ->
  (forall b, best = Some b -> In b pool) ->
  otherModel pool brandSegment best
  = hd_error (sort comparePositive (filter (fun m => negb (sameObject m best)) pool)).
Proof.
  intros Hnd Hbest. unfold otherModel.
  set (others := filter (fun m => negb (sameObject m best)) pool).
  destruct (hd_error (sort comparePositive others)) as [m |] eqn:E; [reflexivity |].
  assert (others = []) as Hnil.
  { apply (sort_nil_iff comparePositive).
    destruct (sort comparePositive others); [reflexivity | discriminate]. }
  cbv zeta.
  match goal with
  | |- match find ?d _ with _ => _ end = _ => destruct (find d (leaderboard brandSegment)) as [e |] eqn:F
  end; [| reflexivity].
  apply find_some in F. destruct F as [_ Hd].
  destruct (find (matchesEntry e) pool) as [o |] eqn:Fo; [| reflexivity].
  exfalso. apply find_some in Fo. destruct Fo as [Ho Hm].
  pose proof (filter_nil_all _ _ Hnil o Ho) as Hsame. simpl in Hsame.
  apply negb_false_iff in Hsame.
  destruct best as [b |]; [| discriminate].
  simpl in Hsame. apply Nat.eqb_eq in Hsame.
  assert (o = b) as -> by (apply (same_id_same_object pool); auto).
  unfold matchesEntry in Hm. apply andb_true_iff in Hm. destruct Hm as [Hb Hmo].
  apply String.eqb_eq in Hb. apply String.eqb_eq in Hmo.
  rewrite Hb, Hmo, !String.eqb_refl in Hd. discriminate.
Qed.

Lemma bestModel_in_pool pool brandSegment b :
  bestModel pool brandSegment = Some b -> In b pool.
Proof.
  rewrite bestModel_head. intro H.
  apply (sort_head_first compareScore compareScore_trans compareScore_total) in H.
  tauto.
Qed.

End BuyerSelection.

Section BuyerCards.
Import JS Buyer.
Variables toFixed1 toLocaleString numToString : Q -> string.

Lemma brandCards_appends selectedBrand inScope brandSegment recs :
  brandCards toLocaleString numToString selectedBrand inScope brandSegment recs
  = recs ++ brandCards toLocaleString numToString selectedBrand inScope brandSegment [].
Proof.
  unfold brandCards, push. destruct (String.eqb selectedBrand "all").
  - destruct (hd_error inScope); simpl; [reflexivity | symmetry; apply app_nil_r].
  - cbv zeta.
    repeat match goal with
           | |- context [match ?x with _ => _ end] => destruct x
           end; simpl; try reflexivity; symmetry; apply app_nil_r.
Qed.

Lemma otherModelCards_appends other recs :
  otherModelCards numToString other recs = recs ++ otherModelCards numToString other [].
Proof.
  unfold otherModelCards, push. destruct other as [[i m] |]; simpl;
    [reflexivity | symmetry; apply app_nil_r].
Qed.

Lemma generateBuyerRecommendations_sources dataset selectedBrand brandSegment :
  let pool := scopedModels dataset selectedBrand in
  let best := hd_error (sort compareScore pool) in
  let other := hd_error (sort comparePositive
                              (filter (fun m => negb (sameObject m best)) pool)) in
  let sourced :=
    bestModelCards toFixed1 numToString selectedBrand best []
    ++ brandCards toLocaleString numToString selectedBrand
                  (scopedBrands dataset selectedBrand) brandSegment []
    ++ otherModelCards numToString other [] in
  generateBuyerRecommendations toFixed1 toLocaleString numToString
    dataset selectedBrand brandSegment
  = if isEmpty sourced then [monitorCard] else sourced.
Proof.
  intros pool best other sourced.
  pose proof (generateBuyerRecommendations_length toFixed1 toLocaleString numToString
                dataset selectedBrand brandSegment) as Hlen.
  unfold generateBuyerRecommendations in *. cbv zeta in *. fold pool in Hlen |- *.
  rewrite bestModel_head in *. fold best in Hlen |- *.
  rewrite otherModel_head in *;
    try apply scopedModels_ids;
    try (intros b Hb; apply (bestModel_in_pool pool brandSegment); rewrite bestModel_head; exact Hb).
  fold other in Hlen |- *.
  rewrite otherModelCards_appends, brandCards_appends in *.
  rewrite <- app_assoc in *. fold sourced in Hlen |- *.
  change 4%Z with (Z.of_nat 4) in *. rewrite slice_from_0 in *.
  assert (forall l : list BuyerRecommendation,
             (length (firstn 4 l) <= 4)%nat) as _ by (intro; apply firstn_le_length).
  destruct sourced as [| c t] eqn:E; [reflexivity |].
  simpl isEmpty in *. cbv iota in *.
  apply firstn_all2.
  assert (length (bestModelCards toFixed1 numToString selectedBrand best []) <= 2)%nat as H1
      by (pose proof (bestModelCards_length toFixed1 numToString selectedBrand best []); simpl in *; lia).
  assert (length (brandCards toLocaleString numToString selectedBrand
                             (scopedBrands dataset selectedBrand) brandSegment []) <= 1)%nat as H2
      by (pose proof (brandCards_length toLocaleString numToString selectedBrand
                        (scopedBrands dataset selectedBrand) brandSegment []); simpl in *; lia).
  assert (length (otherModelCards numToString other []) <= 1)%nat as H3
      by (pose proof (otherModelCards_length numToString other []); simpl in *; lia).
  rewrite <- E. subst sourced.
  rewrite !length_app in *. lia.
Qed.

End BuyerCards.

(** X1. The model named as top pick is a model of the scope whose score
    [(positive_pct ?? 0) + (avg_rating ?? 0)] no model of the scope exceeds;
    there is none exactly when the scope is empty. *)
Theorem best_model_tops_scope
        (pool : list (nat * Buyer.ModelAnalysisEntry))
        (brandSegment : option Buyer.BuyerBrandSegment) :
  (Buyer.bestModel pool brandSegment = None <-> pool = [])
  /\ (forall b, Buyer.bestModel pool brandSegment = Some b ->
        In b pool
        /\ forall m, In m pool -> Buyer.score (snd m) <= Buyer.score (snd b)).
Proof.
  rewrite bestModel_head. split.
  - split; intro H.
    + apply (sort_nil_iff Buyer.compareScore).
      destruct (JS.sort Buyer.compareScore pool); [reflexivity | discriminate].
    + subst. reflexivity.
  - intros b Hb.
    apply (sort_head_first Buyer.compareScore compareScore_trans compareScore_total) in Hb.
    destruct Hb as [Hin Hmax]. split; [exact Hin |].
    intros m Hm. destruct (Hmax m Hm) as [Hc | ->]; [| apply Qle_refl].
    unfold Buyer.compareScore in Hc. cbv zeta in Hc. lra.
Qed.

(** X1, at the sample scope of an unrated and a rated model. *)
Lemma best_model_tops_scope_witness :
  Buyer.score Samples.unrated <= Buyer.score Samples.rated.
Proof.
  destruct (best_model_tops_scope
              (Buyer.refs [Samples.unrated; Samples.rated]) None) as [_ H].
  destruct (H (1%nat, Samples.rated)) as [_ Hmax].
  - vm_compute. reflexivity.
  - apply (Hmax (0%nat, Samples.unrated)). simpl. auto.
Defined.

(** X2. The leaderboard of the brand segment never changes the cards: two
    segments with the same summary give the same recommendations, and a
    segment without a summary gives what no segment gives. *)
Theorem leaderboard_never_changes_cards
        (toFixed1 toLocaleString numToString : Q -> string)
        (dataset : Buyer.BuyerInsightsDataset) (selectedBrand : string)
        (s : option Buyer.SegmentSummary)
        (entries entries' : option (list Buyer.ModelLeaderboardEntry)) :
  Buyer.generateBuyerRecommendations toFixed1 toLocaleString numToString dataset selectedBrand
    (Some {| Buyer.summary := s; Buyer.top_models := entries |})
  = Buyer.generateBuyerRecommendations toFixed1 toLocaleString numToString dataset selectedBrand
      (Some {| Buyer.summary := s; Buyer.top_models := entries' |})
  /\ Buyer.generateBuyerRecommendations toFixed1 toLocaleString numToString dataset selectedBrand
       (Some {| Buyer.summary := None; Buyer.top_models := entries |})
     = Buyer.generateBuyerRecommendations toFixed1 toLocaleString numToString dataset
         selectedBrand None.
Proof.
  rewrite !generateBuyerRecommendations_sources. split; reflexivity.
Qed.

(** X3. The secondary option is never the top pick: it is another object of
    the scope, and among the others none has a higher positive share. *)
Theorem secondary_option_is_another_model
        (dataset : Buyer.BuyerInsightsDataset) (selectedBrand : string)
        (brandSegment : option Buyer.BuyerBrandSegment)
        (b o : nat * Buyer.ModelAnalysisEntry) :
  let pool := Buyer.scopedModels dataset selectedBrand in
  Buyer.bestModel pool brandSegment = Some b ->
  Buyer.otherModel pool brandSegment (Some b) = Some o ->
  In o pool
  /\ fst o <> fst b
  /\ forall m, In m pool -> fst m <> fst b ->
               Buyer.positive_pct (snd m) ?? 0 <= Buyer.positive_pct (snd o) ?? 0.
Proof.
  intros pool Hb Ho.
  rewrite otherModel_head in Ho.
  - apply (sort_head_first Buyer.comparePositive comparePositive_trans comparePositive_total)
      in Ho.
    destruct Ho as [Hin Hmax].
    apply filter_In in Hin. destruct Hin as [Hin Hne].
    simpl in Hne. apply negb_true_iff in Hne. apply Nat.eqb_neq in Hne.
    repeat split; try assumption.
    intros m Hm Hmb.
    assert (In m (filter (fun x => negb (Buyer.sameObject x (Some b))) pool)) as Hm'.
    { apply filter_In. split; [exact Hm |]. simpl.
      apply negb_true_iff. apply Nat.eqb_neq. exact Hmb. }
    destruct (Hmax m Hm') as [Hc | ->]; [| apply Qle_refl].
    unfold Buyer.comparePositive in Hc. lra.
  - apply scopedModels_ids.
  - intros b' E. injection E as <-. apply (bestModel_in_pool pool brandSegment). exact Hb.
Qed.

(** X3, at the sample scope: the unrated model is the secondary option. *)
Lemma secondary_option_is_another_model_witness :
  fst (0%nat, Samples.unrated) <> fst (1%nat, Samples.rated).
Proof.
  apply (secondary_option_is_another_model
           (Samples.buyerDataset [Samples.unrated; Samples.rated]) "all" None
           (1%nat, Samples.rated) (0%nat, Samples.unrated)).
  - vm_compute. reflexivity.
  - vm_compute. reflexivity.
Defined.

(** X4. The buyer cards are the cards of the three sources in order, the
    best model (at most two cards), the brand (at most one) and the best of
    the other models (at most one), none dropped by the cap of four; the
    generic card stands alone, when the sources give nothing. *)
Theorem buyer_cards_are_the_sources
        (toFixed1 toLocaleString numToString : Q -> string)
        (dataset : Buyer.BuyerInsightsDataset) (selectedBrand : string)
        (brandSegment : option Buyer.BuyerBrandSegment) :
  let pool := Buyer.scopedModels dataset selectedBrand in
  let best := hd_error (JS.sort Buyer.compareScore pool) in
  let other := hd_error (JS.sort Buyer.comparePositive
                                 (filter (fun m => negb (Buyer.sameObject m best)) pool)) in
  let fromBest := Buyer.bestModelCards toFixed1 numToString selectedBrand best [] in
  let fromBrand := Buyer.brandCards toLocaleString numToString selectedBrand
                     (Buyer.scopedBrands dataset selectedBrand) brandSegment [] in
  let fromOther := Buyer.otherModelCards numToString other [] in
  Buyer.generateBuyerRecommendations toFixed1 toLocaleString numToString
    dataset selectedBrand brandSegment
  = (if JS.isEmpty (fromBest ++ fromBrand ++ fromOther) then [Buyer.monitorCard]
     else fromBest ++ fromBrand ++ fromOther)
  /\ (length fromBest <= 2)%nat
  /\ (length fromBrand <= 1)%nat
  /\ (length fromOther <= 1)%nat.
Proof.
  intros pool best other fromBest fromBrand fromOther.
  split; [apply generateBuyerRecommendations_sources |].
  pose proof (bestModelCards_length toFixed1 numToString selectedBrand best []) as H1.
  pose proof (brandCards_length toLocaleString numToString selectedBrand
                (Buyer.scopedBrands dataset selectedBrand) brandSegment []) as H2.
  pose proof (otherModelCards_length numToString other []) as H3.
  simpl in H1, H2, H3. fold fromBest in H1. fold fromBrand in H2. fold fromOther in H3.
  lia.
Qed.

(** ** SupplierInsights: how many cards, and which *)

Section SupplierCounts.
Import JS Supplier CardInvariants.
Variables toFixed1 toLocaleString : Q -> string.
Variable scopeLabel : string.

Lemma length_pushCard cards title description :
  (length cards <= MAX_CARDS)%nat ->
  length (pushCard cards title description) = Nat.min MAX_CARDS (S (length cards)).
Proof.
  intro H. unfold pushCard.
  destruct (Nat.ltb_spec (length cards) MAX_CARDS) as [Hlt | Hge];
    unfold MAX_CARDS in *.
  - rewrite length_app. cbn [length]. lia.
  - lia.
Qed.

Lemma length_fold_push {X : Type}
      (step : list RecommendationCardData -> X -> list RecommendationCardData) items :
  (forall cards x, (length cards <= MAX_CARDS)%nat ->
                   length (step cards x) = Nat.min MAX_CARDS (S (length cards))) ->
  forall cards, (length cards <= MAX_CARDS)%nat ->
    length (fold_left step items cards) = Nat.min MAX_CARDS (length cards + length items).
Proof.
  unfold MAX_CARDS. intro Hstep.
  induction items as [| x t IH]; intros cards Hc; cbn [fold_left length].
  - lia.
  - rewrite IH; rewrite Hstep by exact Hc; lia.
Qed.

Lemma slice_0_length {X : Type} (n : nat) (l : list X) :
  length (slice 0 (Z.of_nat n) l) = Nat.min n (length l).
Proof. rewrite slice_from_0. apply length_firstn. Qed.

Lemma isEmpty_length {X : Type} (l : list X) : isEmpty l = (length l =? 0)%nat.
Proof. destruct l; reflexivity. Qed.

Lemma noBrandCards_length complaints fallback brandModels :
  length (createRecommendationCards toFixed1 toLocaleString scopeLabel
            complaints fallback None brandModels)
  = Nat.max 1 (Nat.min 3 (length complaints + length fallback)).
Proof.
  unfold createRecommendationCards. cbv zeta.
  set (cards1 := if negb (isEmpty complaints) then _ else _).
  assert (length cards1 = Nat.min 3 (length complaints)) as L1.
  { subst cards1. destruct complaints as [| c t]; [reflexivity |].
    simpl isEmpty. simpl negb. cbv iota.
    rewrite (length_fold_push (portfolioCard toLocaleString scopeLabel)).
    - change (Z.of_nat MAX_CARDS - Z.of_nat (length (@nil RecommendationCardData)))%Z
        with (Z.of_nat 3).
      rewrite slice_0_length. cbn [length]. unfold MAX_CARDS. lia.
    - intros cards x Hc. unfold portfolioCard. apply length_pushCard. exact Hc.
    - cbn [length]. unfold MAX_CARDS. lia. }
  set (cards2 := if (length cards1 <? 3)%nat && negb (isEmpty fallback) then _ else _).
  assert (length cards2 = Nat.min 3 (length complaints + length fallback)) as L2.
  { subst cards2.
    destruct (Nat.ltb_spec (length cards1) 3) as [Hlt | Hge]; simpl andb.
    - destruct fallback as [| f t]; simpl isEmpty; simpl negb; cbv iota.
      + simpl length. lia.
      + rewrite (length_fold_push (fallbackCard scopeLabel)).
        * replace (3 - Z.of_nat (length cards1))%Z
            with (Z.of_nat (3 - length cards1)) by lia.
          rewrite slice_0_length. unfold MAX_CARDS. lia.
        * intros cards x Hc. unfold fallbackCard. apply length_pushCard. exact Hc.
        * unfold MAX_CARDS. lia.
    - lia. }
  rewrite isEmpty_length.
  destruct (Nat.eqb_spec (length cards2) 0) as [E | N].
  - unfold monitorCard. rewrite length_pushCard by (unfold MAX_CARDS; lia).
    rewrite E. unfold MAX_CARDS. lia.
  - lia.
Qed.

End SupplierCounts.

Section SupplierTitles.
Import JS Supplier CardInvariants SupplierPage.
Variables toFixed1 toLocaleString : Q -> string.
Variable scopeLabel : string.

Lemma title_pushCard cards t d :
  (length cards < MAX_CARDS)%nat ->
  map title (pushCard cards t d) = map title cards ++ [t]
  /\ length (pushCard cards t d) = S (length cards).
Proof.
  intro H. unfold pushCard.
  apply Nat.ltb_lt in H. rewrite H.
  rewrite map_app, length_app. simpl. split; [reflexivity | lia].
Qed.

Lemma titles_portfolio items : forall cards,
  (length cards + length items <= MAX_CARDS)%nat ->
  map title (fold_left (portfolioCard toLocaleString scopeLabel) items cards)
  = map title cards ++ map fixTitle items
  /\ length (fold_left (portfolioCard toLocaleString scopeLabel) items cards)
     = (length cards + length items)%nat.
Proof.
  induction items as [| x t IH]; intros cards H; cbn [fold_left map length] in *.
  - rewrite app_nil_r. split; [reflexivity | lia].
  - assert (length cards < MAX_CARDS)%nat as Hlt by lia.
    unfold portfolioCard at 2 4.
    match goal with
    | |- context [pushCard cards ?t ?d] =>
        destruct (title_pushCard cards t d Hlt) as [Et El];
        destruct (IH (pushCard cards t d)) as [E L]; [rewrite El; lia |]
    end.
    rewrite E, L, Et, El, <- app_assoc. split; [reflexivity | lia].
Qed.

Lemma titles_fallback texts : forall cards,
  (length cards + length texts <= MAX_CARDS)%nat ->
  map title (fold_left (fallbackCard scopeLabel) texts cards)
  = map title cards
    ++ map (fallbackLabel scopeLabel) (seq (length cards + 1) (length texts))
  /\ length (fold_left (fallbackCard scopeLabel) texts cards)
     = (length cards + length texts)%nat.
Proof.
  induction texts as [| x t IH]; intros cards H; cbn [fold_left map length seq] in *.
  - rewrite app_nil_r. split; [reflexivity | lia].
  - assert (length cards < MAX_CARDS)%nat as Hlt by lia.
    unfold fallbackCard at 2 4. cbv zeta.
    match goal with
    | |- context [pushCard cards ?t ?d] =>
        destruct (title_pushCard cards t d Hlt) as [Et El];
        destruct (IH (pushCard cards t d)) as [E L]; [rewrite El; lia |]
    end.
    rewrite E, L, Et, El, <- app_assoc.
    replace (S (length cards) + 1)%nat with (S (length cards + 1)) by lia.
    split; [reflexivity | lia].
Qed.

Lemma noBrandCards_titles complaints fallback brandModels :
  map title (createRecommendationCards toFixed1 toLocaleString scopeLabel
               complaints fallback None brandModels)
  = portfolioTitles scopeLabel complaints fallback.
Proof.
  unfold createRecommendationCards, portfolioTitles. cbv zeta.
  set (fixes := firstn 3 complaints).
  assert (length fixes <= 3)%nat as Hf by (subst fixes; rewrite length_firstn; lia).
  set (cards1 := if negb (isEmpty complaints) then _ else _).
  assert (map title cards1 = map fixTitle fixes /\ length cards1 = length fixes) as [T1 L1].
  { subst cards1 fixes. destruct complaints as [| c t]; [split; reflexivity |].
    simpl isEmpty. simpl negb. cbv iota.
    change (Z.of_nat MAX_CARDS - Z.of_nat (length (@nil RecommendationCardData)))%Z
      with (Z.of_nat 3).
    rewrite slice_from_0.
    apply (titles_portfolio (firstn 3 (c :: t)) []).
    rewrite length_firstn. unfold MAX_CARDS. simpl length. lia. }
  set (texts := firstn (3 - length fixes) fallback).
  assert (length texts <= 3 - length fixes)%nat as Ht
      by (subst texts; rewrite length_firstn; lia).
  set (cards2 := if (length cards1 <? 3)%nat && negb (isEmpty fallback) then _ else _).
  assert (map title cards2
          = map fixTitle fixes
            ++ map (fallbackLabel scopeLabel) (seq (length fixes + 1) (length texts))
          /\ length cards2 = (length fixes + length texts)%nat) as [T2 L2].
  { subst cards2.
    destruct (Nat.ltb_spec (length cards1) 3) as [Hlt | Hge]; simpl andb.
    - destruct fallback as [| f t] eqn:Ef; simpl isEmpty; simpl negb; cbv iota.
      + subst texts. rewrite firstn_nil. simpl. rewrite app_nil_r.
        split; [exact T1 | lia].
      + replace (3 - Z.of_nat (length cards1))%Z
          with (Z.of_nat (3 - length fixes)) by lia.
        rewrite slice_from_0. fold texts.
        destruct (titles_fallback texts cards1) as [E L];
          [unfold MAX_CARDS; lia |].
        rewrite E, L, T1, L1. split; reflexivity.
    - assert (texts = []) as -> by (subst texts; replace (3 - length fixes)%nat with 0%nat by lia; reflexivity).
      simpl. rewrite app_nil_r. split; [exact T1 | lia]. }
  destruct cards2 as [| c2 t2] eqn:E2.
  - simpl in L2.
    destruct fixes as [| f tf]; [| simpl in L2; lia].
    destruct texts as [| x tx]; [| simpl in L2; lia].
    reflexivity.
  - simpl isEmpty. cbv iota. rewrite T2.
    destruct fixes as [| f tf]; [| reflexivity].
    destruct texts as [| x tx]; [simpl in L2; discriminate | reflexivity].
Qed.

End SupplierTitles.

(** The page's call at a brand with detail, at a name no brand has, and at a
    name that every object inherits. *)
Example page_call_outcomes :
  Supplier.cardTitles
    (Supplier.recommendationCards Samples.blank Samples.blank
       MoreSamples.detailedDataset "Acme")
  = Some [ "Acme: Sentiment pulse"; "Acme: Urgent fix for battery";
           "Acme: Customer delight initiative" ]%string
  /\ Supplier.cardTitles
       (Supplier.recommendationCards Samples.blank Samples.blank
          MoreSamples.detailedDataset "Zeta")
     = Some ["Portfolio: Fix battery"%string]
  /\ Supplier.recommendationCards Samples.blank Samples.blank
       MoreSamples.detailedDataset "constructor"
     = JS.Thrown.
Proof. repeat split; vm_compute; reflexivity. Qed.

(** C5, amended. A scope brand that is not among the snapshot's brand
    options is reset to "all" by the page's normalising effect, and the
    output computed after the reset is the unscoped output, on the model
    advisor and on the supplier page alike. The computations themselves do
    not fall back. The shortlist computation, handed a brand that no model
    carries, returns empty lists. The supplier generator, handed a brand for
    which the lookup of brand-level detail yields nothing, builds its cards
    from the first six overall complaints under that brand's label and
    without the free-text recommendations: a fix card per complaint up to
    three, or the monitoring card alone. *)
Theorem unknown_brand_reset_to_all :
  (forall data budget brand,
      JS.includes (ModelAdvisor.brandOptions data) brand = false ->
      ModelAdvisor.shortlist data budget
        (ModelAdvisor.normalizeBudgetBrand (ModelAdvisor.brandOptions data) brand)
      = ModelAdvisor.shortlist data budget "all")
  /\ (forall toFixed1 toLocaleString activeDataset brand,
         JS.includes (Supplier.brandOptions activeDataset) brand = false ->
         Supplier.recommendationCards toFixed1 toLocaleString activeDataset
           (Supplier.normalizeSelectedBrand (Supplier.brandOptions activeDataset) brand)
         = Supplier.recommendationCards toFixed1 toLocaleString activeDataset "all")
  /\ (forall d budget brand,
         String.eqb brand "all" = false ->
         filter (fun m => String.eqb (ModelAdvisor.brand m) brand) (ModelAdvisor.models d) = [] ->
         ModelAdvisor.shortlist (Some d) budget brand = ModelAdvisor.noShortlist)
  /\ (forall toFixed1 toLocaleString activeDataset brand,
         String.eqb brand "all" = false ->
         Supplier.brandInsight activeDataset brand = JS.Absent ->
         let overall := JS.slice 0 6 (Supplier.complaint_volume activeDataset) in
         Supplier.recommendationCards toFixed1 toLocaleString activeDataset brand
         = JS.Returned
             (Supplier.createRecommendationCards toFixed1 toLocaleString brand
                overall [] None None)
         /\ Supplier.cardTitles
              (Supplier.recommendationCards toFixed1 toLocaleString activeDataset brand)
            = Some (match overall with
                    | [] => ["Monitor customer signals"%string]
                    | _ :: _ => map SupplierPage.fixTitle (firstn 3 overall)
                    end)).
Proof.
  split; [| split; [| split]].
  - intros data budget brand H.
    rewrite (normalizeBudgetBrand_absent _ _ H). reflexivity.
  - intros toFixed1 toLocaleString activeDataset brand H.
    rewrite (normalizeSelectedBrand_absent _ _ H). reflexivity.
  - apply shortlist_unknown_brand.
  - intros toFixed1 toLocaleString activeDataset brand Hb Hi overall.
    assert (Supplier.recommendationCards toFixed1 toLocaleString activeDataset brand
            = JS.Returned
                (Supplier.createRecommendationCards toFixed1 toLocaleString brand
                   overall [] None None)) as E.
    { unfold Supplier.recommendationCards, Supplier.scopedComplaintVolume.
      rewrite Hb, Hi. cbv zeta. fold overall.
      destruct (Supplier.brandModels activeDataset brand); reflexivity. }
    split; [exact E |].
    rewrite E. unfold Supplier.cardTitles.
    rewrite noBrandCards_titles. unfold SupplierPage.portfolioTitles. cbv zeta.
    rewrite firstn_nil.
    destruct overall as [| c t]; [reflexivity |].
    cbn [firstn map length seq]. rewrite app_nil_r. reflexivity.
Qed.

(** C5, amended, at the sample snapshots, the brand "Zeta" that they do not
    have and the listed brand "Acme" that has no brand-level detail. *)
Lemma unknown_brand_reset_to_all_witness :
  ModelAdvisor.candidatePool
    (ModelAdvisor.shortlist (Some (Samples.snapshot [Samples.cheaper])) None
       (ModelAdvisor.normalizeBudgetBrand
          (ModelAdvisor.brandOptions (Some (Samples.snapshot [Samples.cheaper]))) "Zeta"))
  = [Samples.cheaper]
  /\ Supplier.cardTitles
       (Supplier.recommendationCards Samples.blank Samples.blank Samples.supplierDataset
          (Supplier.normalizeSelectedBrand
             (Supplier.brandOptions Samples.supplierDataset) "Zeta"))
     = Some ["Portfolio: Fix battery"%string; "Recommendation 2"%string]
  /\ ModelAdvisor.shortlist (Some (Samples.snapshot [Samples.cheaper])) None "Zeta"
     = ModelAdvisor.noShortlist
  /\ Supplier.cardTitles
       (Supplier.recommendationCards Samples.blank Samples.blank Samples.supplierDataset "Acme")
     = Some ["Portfolio: Fix battery"%string].
Proof.
  destruct unknown_brand_reset_to_all as [H1 [H2 [H3 H4]]].
  split; [| split; [| split]].
  - rewrite H1 by reflexivity. vm_compute. reflexivity.
  - rewrite H2 by reflexivity. vm_compute. reflexivity.
  - apply H3; reflexivity.
  - destruct (H4 Samples.blank Samples.blank Samples.supplierDataset "Acme"%string)
      as [_ T]; [reflexivity | reflexivity |].
    rewrite T. reflexivity.
Defined.

Section SupplierBrandFacts.
Import JS Supplier CardInvariants.
Variables toFixed1 toLocaleString : Q -> string.
Variable scopeLabel : string.

Lemma slice_second {X : Type} (x0 x1 : X) rest :
  slice 1 2 (x0 :: x1 :: rest) = [x1].
Proof.
  unfold slice, relIndex. cbn [length].
  set (n := length rest).
  replace (Z.min 1 (Z.of_nat (S (S n)))) with 1%Z by lia.
  replace (Z.min 2 (Z.of_nat (S (S n)))) with 2%Z by lia.
  reflexivity.
Qed.

(** X6. With brand-level detail and two or more complaints the three cards
    are the sentiment pulse, the urgent fix for the first complaint and the
    stabilising plan for the second: feature sentiments, models and the
    filler are never reached. *)
Theorem two_complaints_fill_brand_cards c0 c1 rest fallback bi brandModels :
  map title (createRecommendationCards toFixed1 toLocaleString scopeLabel
               (c0 :: c1 :: rest) fallback (Some bi) brandModels)
  = [ (s_brand (summary bi) +++ ": Sentiment pulse")%string;
      (s_brand (summary bi) +++ ": Urgent fix for " +++ feature c0)%string;
      (s_brand (summary bi) +++ ": Stabilize " +++ feature c1)%string ].
Proof.
  unfold createRecommendationCards.
  destruct (brandSourceCards_spec toFixed1 toLocaleString scopeLabel
              (c0 :: c1 :: rest) bi brandModels) as [P _].
  rewrite (fillCards_spec _ _ _ P).
  assert (map title (brandSourceCards toFixed1 toLocaleString scopeLabel
                       (c0 :: c1 :: rest) bi brandModels)
          = [ (s_brand (summary bi) +++ ": Sentiment pulse")%string;
              (s_brand (summary bi) +++ ": Urgent fix for " +++ feature c0)%string;
              (s_brand (summary bi) +++ ": Stabilize " +++ feature c1)%string ]) as E.
  { unfold brandSourceCards. cbv zeta.
    unfold pulseCard, complaintCards, pushCard. cbn [length app Nat.ltb Nat.leb MAX_CARDS].
    change (Z.of_nat 3 - Z.of_nat 2 + 1)%Z with 2%Z.
    rewrite slice_second. cbn [fold_left].
    unfold stabilizeCard, pushCard. cbn [length app Nat.ltb Nat.leb MAX_CARDS].
    unfold featureCards. cbn [length Nat.ltb Nat.leb MAX_CARDS].
    unfold modelCard. cbn [length Nat.ltb Nat.leb MAX_CARDS].
    destruct brandModels; reflexivity. }
  rewrite map_app, E.
  apply (f_equal (@length _)) in E. rewrite length_map in E. rewrite E.
  reflexivity.
Qed.

Lemma compareNegativePct_trans a b c :
  compareNegativePct a b <= 0 -> compareNegativePct b c <= 0 -> compareNegativePct a c <= 0.
Proof. unfold compareNegativePct. lra. Qed.

Lemma compareNegativePct_total a b :
  0 < compareNegativePct a b -> compareNegativePct b a <= 0.
Proof. unfold compareNegativePct. lra. Qed.

Lemma problematicModel_spec bm pm :
  problematicModel bm = Some pm ->
  In pm bm
  /\ exists n, negative_pct pm = Some n
               /\ forall m k, In m bm -> negative_pct m = Some k -> k <= n.
Proof.
  unfold problematicModel. intro H.
  apply (sort_head_first compareNegativePct compareNegativePct_trans compareNegativePct_total)
    in H.
  destruct H as [Hin Hmax].
  apply filter_In in Hin. destruct Hin as [Hin Hs].
  split; [exact Hin |].
  destruct (negative_pct pm) as [n |] eqn:E; [| discriminate].
  exists n. split; [reflexivity |].
  intros m k Hm Hk.
  assert (In m (filter (fun x => isSome (negative_pct x)) bm)) as Hm'
      by (apply filter_In; rewrite Hk; auto).
  destruct (Hmax m Hm') as [Hc | ->].
  - unfold compareNegativePct in Hc. rewrite E, Hk in Hc. simpl in Hc. lra.
  - rewrite E in Hk. injection Hk as ->. apply Qle_refl.
Qed.

Lemma problematicModel_none bm :
  problematicModel bm = None <-> forall m, In m bm -> negative_pct m = None.
Proof.
  unfold problematicModel. split.
  - intros H m Hm.
    assert (filter (fun x => isSome (negative_pct x)) bm = []) as Hnil.
    { apply (sort_nil_iff compareNegativePct).
      destruct (sort compareNegativePct _); [reflexivity | discriminate]. }
    pose proof (filter_nil_all _ _ Hnil m Hm) as Hf. simpl in Hf.
    destruct (negative_pct m); [discriminate | reflexivity].
  - intro H.
    assert (filter (fun x => isSome (negative_pct x)) bm = []) as ->; [| reflexivity].
    induction bm as [| x t IH]; [reflexivity |].
    simpl. rewrite (H x) by (left; reflexivity). simpl.
    apply IH. intros m Hm. apply H. right. exact Hm.
Qed.

End SupplierBrandFacts.

(** X5. Without brand-level detail the supplier cards are a fix card for
    each of the first three complaints, then free-text recommendations for
    the slots left, each numbered by the slot it takes; the monitoring card
    stands alone when there is neither. Their number is
    [max 1 (min 3 (complaints + recommendations))]. *)
Theorem portfolio_cards_by_slot
        (toFixed1 toLocaleString : Q -> string) (scopeLabel : string)
        (complaints : list Supplier.ComplaintEntry) (fallback : list string)
        (brandModels : option (list Supplier.ModelBreakdownEntry)) :
  let cards := Supplier.createRecommendationCards toFixed1 toLocaleString scopeLabel
                 complaints fallback None brandModels in
  map Supplier.title cards = SupplierPage.portfolioTitles scopeLabel complaints fallback
  /\ length cards = Nat.max 1 (Nat.min 3 (length complaints + length fallback)).
Proof.
  split; [apply noBrandCards_titles | apply noBrandCards_length].
Qed.

(** X7. The model singled out for recovery is a model of the brand with a
    negative share that no other model's exceeds; there is none exactly when
    no model has a negative share; and when no share is above zero the model
    source adds no card. *)
Theorem problematic_model_is_worst
        (toFixed1 : Q -> string) (scopeLabel : string)
        (bm : list Supplier.ModelBreakdownEntry) :
  (Supplier.problematicModel bm = None
   <-> forall m, In m bm -> Supplier.negative_pct m = None)
  /\ (forall pm, Supplier.problematicModel bm = Some pm ->
        In pm bm
        /\ exists n, Supplier.negative_pct pm = Some n
                     /\ forall m k, In m bm -> Supplier.negative_pct m = Some k -> k <= n)
  /\ ((forall m k, In m bm -> Supplier.negative_pct m = Some k -> k <= 0) ->
      forall s cards, Supplier.modelCard toFixed1 scopeLabel s (Some bm) cards = cards).
Proof.
  split; [apply problematicModel_none |].
  split; [apply problematicModel_spec |].
  intros Hlow s cards. unfold Supplier.modelCard.
  destruct (length cards <? Supplier.MAX_CARDS)%nat; [| reflexivity].
  destruct (Supplier.problematicModel bm) as [pm |] eqn:E; [| reflexivity].
  apply problematicModel_spec in E. destruct E as [Hin [n [En _]]].
  rewrite En. simpl JS.nullish.
  rewrite (not_gtb_of_le _ _ (Hlow pm n Hin En)). reflexivity.
Qed.

(** X7, at a brand of three models with negative shares 10, 30 and none. *)
Lemma problematic_model_is_worst_witness :
  Supplier.problematicModel MoreSamples.breakdown
  = Some (MoreSamples.breakdownEntry "Two" (Some 30))
  /\ 10 <= 30
  /\ Supplier.modelCard Samples.blank "Acme" (Supplier.summary Samples.bareInsight)
       (Some [MoreSamples.breakdownEntry "Zero" (Some 0)]) []
     = [].
Proof.
  destruct (problematic_model_is_worst Samples.blank "Acme"
              [MoreSamples.breakdownEntry "Zero" (Some 0)]) as [_ [_ H0]].
  destruct (problematic_model_is_worst Samples.blank "Acme" MoreSamples.breakdown)
    as [_ [H _]].
  assert (Supplier.problematicModel MoreSamples.breakdown
          = Some (MoreSamples.breakdownEntry "Two" (Some 30))) as E
      by (vm_compute; reflexivity).
  split; [exact E |]. split.
  - destruct (H _ E) as [_ [n [En Hmax]]].
    injection En as <-.
    apply (Hmax (MoreSamples.breakdownEntry "One" (Some 10)) 10).
    + simpl. auto.
    + reflexivity.
  - apply H0. intros m k [<- | []] Hk. injection Hk as <-. apply Qle_refl.
Defined.

Section FeatureRowFacts.
Import JS Supplier.

Lemma compareFeatureRows_cases a b :
  (~ fs_negativeRatio b == fs_negativeRatio a
   /\ compareFeatureRows a b = fs_negativeRatio b - fs_negativeRatio a)
  \/ (fs_negativeRatio b == fs_negativeRatio a
      /\ compareFeatureRows a b = Negative (fs_counts b) - Negative (fs_counts a)).
Proof.
  unfold compareFeatureRows.
  destruct (Qeq_bool (fs_negativeRatio b) (fs_negativeRatio a)) eqn:E; simpl.
  - right. split; [apply Qeq_bool_iff; exact E | reflexivity].
  - left. split; [apply Qeq_bool_neq; exact E | reflexivity].
Qed.

Lemma compareFeatureRows_trans a b c :
  compareFeatureRows a b <= 0 -> compareFeatureRows b c <= 0 -> compareFeatureRows a c <= 0.
Proof.
  destruct (compareFeatureRows_cases a b) as [[N1 ->] | [E1 ->]];
    destruct (compareFeatureRows_cases b c) as [[N2 ->] | [E2 ->]];
    destruct (compareFeatureRows_cases a c) as [[N3 ->] | [E3 ->]];
    intros H1 H2; try lra; exfalso;
    first [apply N1; lra | apply N2; lra | apply N3; lra].
Qed.

Lemma compareFeatureRows_total a b :
  0 < compareFeatureRows a b -> compareFeatureRows b a <= 0.
Proof.
  destruct (compareFeatureRows_cases a b) as [[N1 ->] | [E1 ->]];
    destruct (compareFeatureRows_cases b a) as [[N2 ->] | [E2 ->]];
    intro H; try lra; exfalso;
    first [apply N1; lra | apply N2; lra].
Qed.

Lemma StronglySorted_weaken {X : Type} (R R' : X -> X -> Prop) l :
  (forall x y, R x y -> R' x y) -> StronglySorted R l -> StronglySorted R' l.
Proof.
  intros HR. induction 1 as [| x t Ht IH Hx]; constructor; [exact IH |].
  apply Forall_forall. intros y Hy. apply HR.
  eapply Forall_forall in Hx; [exact Hx | exact Hy].
Qed.

(** X8. The feature-sentiment rows that feed the redesign cards each come
    from an entry with at least one mention, carry the share
    [Negative / total] of it, and are in descending order of that share,
    rows of equal share in descending order of the negative count. *)
Theorem feature_rows_ranked (r : list (string * SentimentCounts)) :
  let rows := rankedFeatureSentiments r in
  StronglySorted
    (fun a b =>
       fs_negativeRatio b < fs_negativeRatio a
       \/ (fs_negativeRatio b == fs_negativeRatio a
           /\ Negative (fs_counts b) <= Negative (fs_counts a)))
    rows
  /\ Forall (fun row =>
               In (fs_feature row, fs_counts row) r
               /\ fs_total row
                  = Positive (fs_counts row) + Neutral (fs_counts row)
                    + Negative (fs_counts row)
               /\ 0 < fs_total row
               /\ fs_negativeRatio row * fs_total row == Negative (fs_counts row))
            rows.
Proof.
  intro rows. split.
  - apply (StronglySorted_weaken (fun a b => compareFeatureRows a b <= 0)).
    + intros a b H.
      destruct (compareFeatureRows_cases a b) as [[N E] | [Eq E]]; rewrite E in H.
      * left. destruct (Qlt_le_dec (fs_negativeRatio b) (fs_negativeRatio a)) as [L | G];
          [exact L |].
        exfalso. apply N. lra.
      * right. split; [exact Eq | lra].
    + apply sort_sorted.
      * apply compareFeatureRows_trans.
      * apply compareFeatureRows_total.
  - subst rows. unfold rankedFeatureSentiments.
    apply sort_Forall. apply Forall_forall. intros row Hin.
    apply filter_In in Hin. destruct Hin as [Hin Hpos].
    apply in_map_iff in Hin. destruct Hin as [[f counts] [<- Hin]].
    apply gtb_true in Hpos. simpl in *.
    repeat split; try assumption.
    assert (truthy (Positive counts + Neutral counts + Negative counts) = true) as ->
        by (apply positive_truthy; exact Hpos).
    field. intro Z. rewrite Z in Hpos. apply (Qlt_irrefl _ Hpos).
Qed.

End FeatureRowFacts.

(** ** ModelAdvisor: more on the ranked pool *)

Section RankerFacts.
Import JS ModelAdvisor ModelAdvisorPage.

Lemma sameKeys_spec r p m :
  sameKeys r p m = true ->
  exists r' p', avg_rating m = Some r' /\ avg_price_usd m = Some p' /\ r' == r /\ p' == p.
Proof.
  unfold sameKeys. destruct (avg_rating m) as [r' |]; [| discriminate].
  destruct (avg_price_usd m) as [p' |]; [| discriminate].
  intro H. apply andb_true_iff in H. destruct H as [Hr Hp].
  apply Qeq_bool_iff in Hr. apply Qeq_bool_iff in Hp.
  exists r', p'. auto.
Qed.

Lemma Qabs_zero_of_eq x y : x == y -> Qabs (x - y) == 0.
Proof.
  intro E. setoid_replace (x - y) with 0 by lra. reflexivity.
Qed.

Lemma sameKeys_equal budget r p x y :
  sameKeys r p x = true -> sameKeys r p y = true -> compareModels budget x y == 0.
Proof.
  intros Hx Hy.
  destruct (sameKeys_spec _ _ _ Hx) as [rx [px [Erx [Epx [Hrx Hpx]]]]].
  destruct (sameKeys_spec _ _ _ Hy) as [ry [py [Ery [Epy [Hry Hpy]]]]].
  rewrite compareModels_price_decides.
  - rewrite Epx, Epy. simpl. lra.
  - rewrite Erx, Ery. simpl.
    rewrite (Qabs_zero_of_eq ry rx) by lra. discriminate.
  - intros bd _. rewrite Epx, Epy. simpl.
    assert (Qabs (px - bd) == Qabs (py - bd)) as E
        by (apply Qabs_wd; lra).
    rewrite (Qabs_zero_of_eq _ _ E). discriminate.
Qed.

Lemma sort_all_tied budget r p l :
  Forall (fun m => sameKeys r p m = true) l -> sort (compareModels budget) l = l.
Proof.
  induction 1 as [| x t Hx Ht IH]; [reflexivity |].
  cbn [sort]. rewrite IH.
  destruct t as [| y t']; [reflexivity |].
  cbn [insert].
  inversion Ht as [| ? ? Hy _]; subst.
  assert (gtb (compareModels budget x y) 0 = false) as ->; [| reflexivity].
  apply gtb_false. rewrite (sameKeys_equal budget r p x y Hx Hy). apply Qle_refl.
Qed.

Lemma candidatePool_sorted d budget budgetBrand :
  candidatePool (shortlist (Some d) budget budgetBrand)
  = sort (compareModels budget)
         (workingSet budget (withPriceAndRating (scopedPool d budgetBrand))).
Proof.
  unfold shortlist.
  destruct (isEmpty (models d)) eqn:Em.
  - destruct (models d) as [| m t] eqn:E; [| discriminate].
    unfold scopedPool. rewrite E.
    destruct (negb (String.eqb budgetBrand "all")); simpl;
      rewrite workingSet_nil; reflexivity.
  - destruct (withPriceAndRating (scopedPool d budgetBrand)) as [| m t] eqn:E;
      simpl isEmpty; cbv iota.
    + rewrite workingSet_nil. reflexivity.
    + reflexivity.
Qed.

Lemma workingSet_length budget eligible :
  Nat.min 3 (length (workingSet budget eligible)) = Nat.min 3 (length eligible).
Proof.
  unfold workingSet.
  destruct budget as [b |]; [| reflexivity].
  destruct (tolerance (Some b)) as [tol |]; [| reflexivity].
  destruct (truthy b && truthy tol); [| reflexivity].
  cbv zeta.
  destruct (Nat.leb_spec 3 (length (withinTolerance b tol eligible))) as [H | H];
    [| reflexivity].
  assert (length (withinTolerance b tol eligible) <= length eligible)%nat
    by (unfold withinTolerance; apply filter_length_le).
  lia.
Qed.

(** X9. Candidates with the same rating and the same price compare as
    equal, with or without a budget: the comparator returns 0 for them and
    leaves their order to the stable sort. A pool made of such candidates
    only is therefore ranked in the order of the snapshot. *)
Theorem exact_ties_compare_equal
        (d : ModelAdvisorResponse) (budget : option Q) (budgetBrand : string) (r p : Q) :
  (forall x y, sameKeys r p x = true -> sameKeys r p y = true ->
               compareModels budget x y == 0)
  /\ (forall l, Forall (fun m => sameKeys r p m = true) l ->
                sort (compareModels budget) l = l)
  /\ (Forall (fun m => sameKeys r p m = true)
             (withPriceAndRating (scopedPool d budgetBrand)) ->
      candidatePool (shortlist (Some d) budget budgetBrand)
      = workingSet budget (withPriceAndRating (scopedPool d budgetBrand))).
Proof.
  split; [| split].
  - intros x y. apply sameKeys_equal.
  - intro l. apply sort_all_tied.
  - intro H. rewrite candidatePool_sorted.
    apply (sort_all_tied budget r p).
    apply workingSet_subset. exact H.
Qed.

(** X9, at a snapshot of two phones rated 4 and priced 100. *)
Lemma exact_ties_compare_equal_witness :
  compareModels None (Samples.phone "Two" 100) Samples.cheaper == 0
  /\ candidatePool
       (shortlist (Some (Samples.snapshot [Samples.phone "Two" 100; Samples.cheaper]))
                  None "all")
     = [Samples.phone "Two" 100; Samples.cheaper].
Proof.
  destruct (exact_ties_compare_equal
              (Samples.snapshot [Samples.phone "Two" 100; Samples.cheaper])
              None "all" 4 100) as [H1 [_ H3]].
  split.
  - apply H1; reflexivity.
  - rewrite H3; [reflexivity |].
    repeat constructor.
Defined.

(** X10. Swapping the two candidates negates the comparator: it never
    orders a pair both ways. *)
Theorem comparator_is_antisymmetric (budget : option Q) (a b : ModelAdvisorModel) :
  compareModels budget b a == - compareModels budget a b.
Proof.
  unfold compareModels. cbv zeta. unfold Math_abs.
  set (ra := avg_rating a ?? 0). set (rb := avg_rating b ?? 0).
  assert (Qabs (ra - rb) == Qabs (rb - ra)) as Er.
  { rewrite <- (Qabs_opp (rb - ra)). apply Qabs_wd. lra. }
  destruct (gtb (Qabs (rb - ra)) epsilon) eqn:G.
  - assert (gtb (Qabs (ra - rb)) epsilon = true) as ->.
    { apply gtb_true. rewrite Er. apply gtb_true. exact G. }
    apply gtb_true in G.
    assert (0 < Qabs (rb - ra)) as Hpos
        by (apply Qlt_trans with epsilon; [reflexivity | exact G]).
    destruct (gtb (rb - ra) 0) eqn:G1; destruct (gtb (ra - rb) 0) eqn:G2;
      try reflexivity; exfalso.
    + apply gtb_true in G1. apply gtb_true in G2. lra.
    + apply gtb_false in G1. apply gtb_false in G2.
      assert (rb - ra == 0) as Z by lra.
      rewrite Z in Hpos. apply (Qlt_irrefl _ Hpos).
  - assert (gtb (Qabs (ra - rb)) epsilon = false) as ->.
    { apply gtb_false. rewrite Er. apply gtb_false. exact G. }
    destruct budget as [bd |]; [| simpl; lra].
    destruct (truthy bd); [| simpl; lra].
    set (da := Qabs (avg_price_usd a ?? bd - bd)).
    set (db := Qabs (avg_price_usd b ?? bd - bd)).
    assert (Qabs (db - da) == Qabs (da - db)) as Ed.
    { rewrite <- (Qabs_opp (da - db)). apply Qabs_wd. lra. }
    destruct (gtb (Qabs (da - db)) epsilon) eqn:Gd.
    + assert (gtb (Qabs (db - da)) epsilon = true) as ->.
      { apply gtb_true. rewrite Ed. apply gtb_true. exact Gd. }
      lra.
    + assert (gtb (Qabs (db - da)) epsilon = false) as ->.
      { apply gtb_false. rewrite Ed. apply gtb_false. exact Gd. }
      lra.
Qed.

(** X11. The comparator is not transitive: ratings within [1e-6] are tied
    pairwise but not across a chain, so there are three candidates of which
    the first precedes the second and the second the third, while the third
    precedes the first. *)
Theorem comparator_is_not_transitive :
  exists a b c,
    compareModels None a b < 0
    /\ compareModels None b c < 0
    /\ compareModels None c a < 0.
Proof.
  exists Cycle.third, Cycle.second, Cycle.first.
  repeat split; vm_compute; reflexivity.
Qed.

(** X12. The budget filter never costs a recommendation: the recommended
    list has [min 3] of the eligible candidates of the scope, and the
    candidate pool has at least as many. *)
Theorem shortlist_never_underfilled
        (d : ModelAdvisorResponse) (budget : option Q) (budgetBrand : string) :
  let eligible := withPriceAndRating (scopedPool d budgetBrand) in
  let s := shortlist (Some d) budget budgetBrand in
  length (recommendedModels s) = Nat.min 3 (length eligible)
  /\ (Nat.min 3 (length eligible) <= length (candidatePool s) <= length eligible)%nat.
Proof.
  intros eligible s. subst s.
  rewrite shortlist_recommended, length_firstn, candidatePool_sorted, sort_length.
  pose proof (workingSet_length budget eligible) as H. fold eligible.
  assert (length (workingSet budget eligible) <= length eligible)%nat as Hle.
  { unfold workingSet.
    destruct budget as [b |]; [| lia].
    destruct (tolerance (Some b)) as [tol |]; [| lia].
    destruct (truthy b && truthy tol); [| lia].
    cbv zeta. destruct (3 <=? _)%nat; [| lia].
    unfold withinTolerance. apply filter_length_le. }
  lia.
Qed.

(** X13. Every candidate of the pool is a model of the snapshot and, under
    a brand scope, a model of that brand. *)
Theorem pool_stays_in_scope
        (d : ModelAdvisorResponse) (budget : option Q) (budgetBrand : string) :
  Forall (fun m => In m (models d)
                   /\ (budgetBrand = "all"%string \/ brand m = budgetBrand))
         (candidatePool (shortlist (Some d) budget budgetBrand)).
Proof.
  rewrite candidatePool_sorted.
  apply sort_Forall, workingSet_subset.
  apply Forall_forall. intros m Hin.
  unfold withPriceAndRating in Hin. apply filter_In in Hin. destruct Hin as [Hin _].
  unfold scopedPool in Hin.
  destruct (String.eqb_spec budgetBrand "all") as [E | N]; simpl in Hin.
  - split; [exact Hin | left; exact E].
  - apply filter_In in Hin. destruct Hin as [Hin Hb].
    apply String.eqb_eq in Hb. split; [exact Hin | right; exact Hb].
Qed.

(** X14. The chart rows are the first eight candidates of the pool, and
    their price and rating are the candidates' own: the defaults of 0 are
    never charted. *)
Theorem comparison_rows_are_measured
        (data : option ModelAdvisorResponse) (budget : option Q) (budgetBrand : string) :
  let pool := candidatePool (shortlist data budget budgetBrand) in
  comparisonData pool = map comparisonRow (firstn 8 pool)
  /\ length (comparisonData pool) = Nat.min 8 (length pool)
  /\ Forall (fun m => avg_price_usd m = Some (price (comparisonRow m))
                      /\ avg_rating m = Some (rating (comparisonRow m)))
            pool.
Proof.
  intro pool. unfold comparisonData.
  change 8%Z with (Z.of_nat 8). rewrite slice_from_0.
  split; [reflexivity |]. split; [rewrite length_map; apply length_firstn |].
  assert (Forall Spec.complete pool) as Hc.
  { subst pool. destruct data as [d |]; [| constructor].
    rewrite candidatePool_sorted.
    apply sort_Forall, workingSet_subset, withPriceAndRating_complete. }
  apply Forall_forall. intros m Hin.
  eapply Forall_forall in Hc; [| exact Hin].
  destruct Hc as [Hp Hr]. unfold comparisonRow. simpl.
  destruct (avg_price_usd m); [| discriminate].
  destruct (avg_rating m); [| discriminate].
  split; reflexivity.
Qed.

End RankerFacts.

(** ** Rounded scores stay in range *)

Section RoundingFacts.
Import JS.

Lemma magnitude_lower (j : Z) ax :
  inject_Z j / 100 <= ax ->
  inject_Z j / 100
  <= (if leb (1000000000000000000000 # 1) ax then ax
      else inject_Z (Qfloor (ax * 100 + (1 # 2))) / 100).
Proof.
  intro H. destruct (leb _ ax); [exact H |].
  assert (inject_Z j <= ax * 100 + (1 # 2)) as Hy.
  { assert (inject_Z j == inject_Z j / 100 * 100) as -> by field. lra. }
  apply Qfloor_resp_le in Hy. rewrite Qfloor_Z in Hy.
  rewrite Zle_Qle in Hy.
  set (n := inject_Z (Qfloor (ax * 100 + (1 # 2)))) in *.
  assert (inject_Z j / 100 == inject_Z j * (1 # 100)) as -> by field.
  assert (n / 100 == n * (1 # 100)) as -> by field.
  lra.
Qed.

Lemma magnitude_upper (j : Z) ax :
  ax <= inject_Z j / 100 ->
  (if leb (1000000000000000000000 # 1) ax then ax
   else inject_Z (Qfloor (ax * 100 + (1 # 2))) / 100)
  <= inject_Z j / 100.
Proof.
  intro H. destruct (leb _ ax); [exact H |].
  pose proof (Qfloor_le (ax * 100 + (1 # 2))) as Hf.
  assert (ax * 100 <= inject_Z j) as Hx.
  { assert (inject_Z j == inject_Z j / 100 * 100) as -> by field. lra. }
  assert (inject_Z (Qfloor (ax * 100 + (1 # 2))) < inject_Z (j + 1)) as Hlt.
  { rewrite inject_Z_plus. change (inject_Z 1) with 1. lra. }
  rewrite <- Zlt_Qlt in Hlt.
  assert (Qfloor (ax * 100 + (1 # 2)) <= j)%Z as Hz by lia.
  rewrite Zle_Qle in Hz.
  set (n := inject_Z (Qfloor (ax * 100 + (1 # 2)))) in *.
  assert (inject_Z j / 100 == inject_Z j * (1 # 100)) as -> by field.
  assert (n / 100 == n * (1 # 100)) as -> by field.
  lra.
Qed.

Lemma toFixed2_lower (j : Z) x : inject_Z j / 100 <= x -> inject_Z j / 100 <= toFixed2 x.
Proof.
  intro H. unfold toFixed2. cbv zeta.
  destruct (gtb 0 x) eqn:G.
  - assert (- x <= inject_Z (- j) / 100) as H'.
    { rewrite inject_Z_opp.
      assert (- inject_Z j / 100 == - (inject_Z j / 100)) as -> by field. lra. }
    pose proof (magnitude_upper (- j) (- x) H') as Hm.
    rewrite inject_Z_opp in Hm.
    assert (- inject_Z j / 100 == - (inject_Z j / 100)) as E by field.
    rewrite E in Hm. lra.
  - apply magnitude_lower. exact H.
Qed.

Lemma toFixed2_upper (j : Z) x : x <= inject_Z j / 100 -> toFixed2 x <= inject_Z j / 100.
Proof.
  intro H. unfold toFixed2. cbv zeta.
  destruct (gtb 0 x) eqn:G.
  - assert (inject_Z (- j) / 100 <= - x) as H'.
    { rewrite inject_Z_opp.
      assert (- inject_Z j / 100 == - (inject_Z j / 100)) as -> by field. lra. }
    pose proof (magnitude_lower (- j) (- x) H') as Hm.
    rewrite inject_Z_opp in Hm.
    assert (- inject_Z j / 100 == - (inject_Z j / 100)) as E by field.
    rewrite E in Hm. lra.
  - apply magnitude_upper. exact H.
Qed.

Lemma toFixed2_unit_range x : 0 <= x <= 5 -> 0 <= toFixed2 x <= 5.
Proof.
  intros [Hlo Hhi]. split.
  - apply Qle_trans with (inject_Z 0 / 100); [discriminate |].
    apply toFixed2_lower. apply Qle_trans with 0; [discriminate | exact Hlo].
  - apply Qle_trans with (inject_Z 500 / 100); [| discriminate].
    apply toFixed2_upper. apply Qle_trans with 5; [exact Hhi | discriminate].
Qed.

End RoundingFacts.

Section ScoreRangeFacts.
Import JS Supplier SupplierScores.

Lemma toFivePointScore_range positive total :
  0 <= positive <= total -> 0 <= toFivePointScore positive total <= 5.
Proof.
  intros [Hp Ht]. unfold toFivePointScore.
  destruct (truthy total) eqn:T; simpl negb; cbv iota.
  - cbv zeta. apply toFixed2_unit_range.
    apply truthy_true in T.
    assert (0 < total) as Hpos.
    { destruct (Qlt_le_dec 0 total) as [L | G]; [exact L |].
      exfalso. apply T. lra. }
    assert (0 < / total) as Hinv by (apply Qinv_lt_0_compat; exact Hpos).
    unfold Qdiv. split.
    + apply Qmult_le_0_compat; [| discriminate].
      apply Qmult_le_0_compat; [exact Hp | lra].
    + assert (positive * / total <= 1) as H1.
      { apply Qle_shift_div_r; [exact Hpos | lra]. }
      lra.
  - split; discriminate.
Qed.

(** X15. The five-point score is 0 without reviews, lies between 0 and 5
    when the positive count is within the total, and is 5 when every review
    is positive; the chart rows by country and by age group stay in that
    range, a present average rating in [0, 5] being rounded within it. *)
Theorem five_point_scores_in_range :
  (forall positive total, total == 0 -> toFivePointScore positive total = 0)
  /\ (forall positive total,
         0 <= positive <= total -> 0 <= toFivePointScore positive total <= 5)
  /\ (forall total, 0 < total -> toFivePointScore total total == 5)
  /\ (forall region,
         0 <= Positive (r_sentiments region) <= r_total_reviews region ->
         0 <= rating (countryRow region) <= 5)
  /\ (forall group,
         0 <= Positive (d_sentiments group) <= d_total_reviews group ->
         (forall r, d_avg_rating group = Some r -> 0 <= r <= 5) ->
         0 <= rating (demographicRow group) <= 5).
Proof.
  split; [| split; [| split; [| split]]].
  - intros positive total E. unfold toFivePointScore.
    assert (truthy total = false) as ->; [| reflexivity].
    unfold truthy. apply negb_false_iff. apply Qeq_bool_iff. exact E.
  - apply toFivePointScore_range.
  - intros total Hpos. unfold toFivePointScore.
    rewrite (positive_truthy total Hpos). simpl negb. cbv iota zeta.
    assert (total / total * 5 == 5) as E by (field; lra).
    apply Qle_antisym.
    + apply Qle_trans with (inject_Z 500 / 100); [| discriminate].
      apply toFixed2_upper. rewrite E. discriminate.
    + apply Qle_trans with (inject_Z 500 / 100); [discriminate |].
      apply toFixed2_lower. rewrite E. discriminate.
  - intros region H. apply toFivePointScore_range. exact H.
  - intros group H Hr. unfold demographicRow. simpl.
    destruct (d_avg_rating group) as [r |].
    + apply toFixed2_unit_range. apply Hr. reflexivity.
    + apply toFivePointScore_range. exact H.
Qed.

(** X15, at a country with three positive reviews of four and an age group
    with an average rating of 4.321. *)
Lemma five_point_scores_in_range_witness :
  rating (countryRow ScoreSamples.region) = 375 # 100
  /\ 0 <= rating (countryRow ScoreSamples.region) <= 5
  /\ rating (demographicRow ScoreSamples.ageGroup) = 432 # 100
  /\ 0 <= rating (demographicRow ScoreSamples.ageGroup) <= 5
  /\ toFivePointScore 3 0 = 0
  /\ toFivePointScore 4 4 == 5.
Proof.
  destruct five_point_scores_in_range as [H0 [_ [H5 [Hc Hd]]]].
  split; [vm_compute; reflexivity |].
  split; [apply Hc; vm_compute; split; discriminate |].
  split; [vm_compute; reflexivity |].
  split.
  - apply Hd.
    + vm_compute. split; discriminate.
    + intros r E. injection E as <-. vm_compute. split; discriminate.
  - split; [apply H0; reflexivity | apply H5; reflexivity].
Defined.

End ScoreRangeFacts.

Section FeatureRangeFacts.
Import JS ModelAdvisor.

Lemma fold_sum_bounds lo hi values : forall acc,
  Forall (fun v => lo <= v <= hi) values ->
  acc + inject_Z (Z.of_nat (length values)) * lo
  <= fold_left Qplus values acc
  <= acc + inject_Z (Z.of_nat (length values)) * hi.
Proof.
  induction values as [| v t IH]; intros acc H.
  - cbn [fold_left length]. change (inject_Z (Z.of_nat 0)) with 0. split; lra.
  - inversion H as [| ? ? Hv Ht]; subst.
    specialize (IH (acc + v) Ht).
    cbn [fold_left length]. rewrite Nat2Z.inj_succ, <- Z.add_1_r, inject_Z_plus.
    change (inject_Z 1) with 1.
    set (n := inject_Z (Z.of_nat (length t))) in *.
    destruct IH as [IH1 IH2]. destruct Hv as [Hv1 Hv2].
    split; lra.
Qed.

Lemma mean_bounds lo hi values :
  values <> [] -> Forall (fun v => lo <= v <= hi) values -> lo <= mean values <= hi.
Proof.
  intros Hne H. unfold mean.
  pose proof (fold_sum_bounds lo hi values 0 H) as [H1 H2].
  assert (0 < inject_Z (Z.of_nat (length values))) as Hn.
  { destruct values as [| v t]; [contradiction |].
    change 0 with (inject_Z 0). rewrite <- Zlt_Qlt. simpl length. lia. }
  set (n := inject_Z (Z.of_nat (length values))) in *.
  set (s := fold_left Qplus values 0) in *.
  split.
  - apply Qle_shift_div_l; [exact Hn | lra].
  - apply Qle_shift_div_r; [exact Hn | lra].
Qed.

Lemma present_Forall (P : Q -> Prop) l :
  Forall (fun o => forall v, o = Some v -> P v) l -> Forall P (present l).
Proof.
  induction 1 as [| o t Ho Ht IH]; simpl; [constructor |].
  destruct o as [v |]; [constructor; [apply Ho; reflexivity | exact IH] | exact IH].
Qed.

End FeatureRangeFacts.

Section FeatureSeriesRange.
Import JS ModelAdvisor.

Lemma NoDup_map_filter {X Y : Type} (g : X -> Y) (f : X -> bool) l :
  NoDup (map g l) -> NoDup (map g (filter f l)).
Proof.
  induction l as [| x t IH]; simpl; intro H; [constructor |].
  inversion H as [| ? ? Hnot Hnd]; subst.
  destruct (f x); simpl; [| apply IH; exact Hnd].
  constructor; [| apply IH; exact Hnd].
  intro Hin. apply Hnot.
  apply in_map_iff in Hin. destruct Hin as [y [Ey Hy]].
  apply filter_In in Hy. apply in_map_iff. exists y. tauto.
Qed.

(** X16. When every measured feature rating of the pool lies in [0, 5],
    every bar of the feature series lies above 0 and at most at 5; there are
    at most four bars, one per feature. *)
Theorem feature_series_in_range (pool : list ModelAdvisorModel) :
  Forall (fun m => forall key label v,
              In (key, label) metrics -> key m = Some v -> 0 <= v <= 5) pool ->
  Forall (fun e => 0 < rating e <= 5) (averageFeatureSeries pool)
  /\ (length (averageFeatureSeries pool) <= 4)%nat
  /\ NoDup (map feature (averageFeatureSeries pool)).
Proof.
  intro Hpool. split; [| split].
  - apply Forall_forall. intros e Hin.
    unfold averageFeatureSeries in Hin.
    apply filter_In in Hin. destruct Hin as [Hin Hpos].
    apply in_map_iff in Hin. destruct Hin as [[key label] [<- Hm]].
    destruct (featureEntry_kept pool key label Hpos) as [Hne Hr].
    split; [apply gtb_true; exact Hpos |].
    rewrite Hr. apply toFixed2_unit_range.
    apply mean_bounds; [exact Hne |].
    unfold featureValues. apply present_Forall.
    apply Forall_forall. intros o Ho v Ev.
    apply in_map_iff in Ho. destruct Ho as [m [<- Hmp]].
    eapply Forall_forall in Hpool; [| exact Hmp].
    apply (Hpool key label v Hm Ev).
  - unfold averageFeatureSeries.
    eapply Nat.le_trans; [apply filter_length_le |].
    rewrite length_map. simpl. lia.
  - unfold averageFeatureSeries. apply NoDup_map_filter.
    simpl. repeat constructor; simpl; intuition discriminate.
Qed.

(** X16, at the pool of the one sample phone. *)
Lemma feature_series_in_range_witness :
  Forall (fun e => 0 < rating e <= 5) (averageFeatureSeries [Samples.cheaper]).
Proof.
  apply feature_series_in_range.
  constructor; [| constructor].
  intros key label v Hm Ev.
  simpl in Hm.
  destruct Hm as [H | [H | [H | [H | []]]]]; inversion H; subst key label;
    simpl in Ev; try discriminate; injection Ev as <-; split; discriminate.
Defined.

End FeatureSeriesRange.

(** ** The state-normalising effects *)

Section NormalisingFacts.
Import JS.

Lemma includes_nonempty options brand : includes options brand = true -> isEmpty options = false.
Proof. destruct options; [discriminate | reflexivity]. Qed.

Lemma normalizeBudgetBrand_valid options brand :
  let r := ModelAdvisor.normalizeBudgetBrand options brand in
  (r = "all"%string \/ includes options r = true)
  /\ ModelAdvisor.normalizeBudgetBrand options r = r
  /\ (includes options brand = true -> r = brand).
Proof.
  unfold ModelAdvisor.normalizeBudgetBrand. cbv zeta.
  destruct (isEmpty options) eqn:Em.
  - split; [left; reflexivity |]. split; [reflexivity |].
    intro H. apply includes_nonempty in H. congruence.
  - destruct (String.eqb_spec brand "all") as [-> | N]; cbn [negb andb].
    + cbn [String.eqb Ascii.eqb Bool.eqb negb andb]. auto.
    + destruct (includes options brand) eqn:I; cbn [negb andb].
      * rewrite (proj2 (String.eqb_neq _ _) N), I. cbn [negb andb]. auto.
      * cbn [String.eqb Ascii.eqb Bool.eqb negb andb].
        split; [auto |]. split; [reflexivity | discriminate].
Qed.

End NormalisingFacts.

Section PageFacts.
Import JS.

Lemma normalizeSelectedBrand_valid options brand :
  let r := Supplier.normalizeSelectedBrand options brand in
  (r = "all"%string \/ includes options r = true)
  /\ Supplier.normalizeSelectedBrand options r = r
  /\ (includes options brand = true -> r = brand).
Proof.
  unfold Supplier.normalizeSelectedBrand. cbv zeta.
  destruct (String.eqb_spec brand "all") as [-> | N].
  - cbn [String.eqb Ascii.eqb Bool.eqb]. auto.
  - destruct (includes options brand) eqn:I; cbn [negb].
    + rewrite (proj2 (String.eqb_neq _ _) N), I. cbn [negb]. auto.
    + cbn [String.eqb Ascii.eqb Bool.eqb].
      split; [auto |]. split; [reflexivity | discriminate].
Qed.

Lemma includes_In options brand : includes options brand = true <-> In brand options.
Proof.
  unfold includes. rewrite existsb_exists. split.
  - intros [x [Hx E]]. apply String.eqb_eq in E. subst. exact Hx.
  - intro H. exists brand. split; [exact H | apply String.eqb_refl].
Qed.

Lemma find_brand_entry (l : list ModelAdvisor.ModelAdvisorBrand) brand :
  In brand (map ModelAdvisor.mb_brand l) ->
  exists entry,
    find (fun e => String.eqb (ModelAdvisor.mb_brand e) brand) l = Some entry
    /\ In entry l /\ ModelAdvisor.mb_brand entry = brand.
Proof.
  induction l as [| e t IH]; simpl; [contradiction |].
  intro H. destruct (String.eqb_spec (ModelAdvisor.mb_brand e) brand) as [E | N].
  - exists e. auto.
  - destruct H as [H | H]; [contradiction |].
    destruct (IH H) as [entry [F [Hin Hb]]]. exists entry. auto.
Qed.

Lemma lookup_listed {X : Type} key (r : list (string * X)) :
  In key (map fst r) -> isSome (lookup key r) = true.
Proof.
  induction r as [| [k v] t IH]; simpl; [contradiction |].
  intro H. destruct (String.eqb_spec k key) as [E | N]; [reflexivity |].
  destruct H as [H | H]; [contradiction | apply IH; exact H].
Qed.

End PageFacts.

(** X17. After the normalising effect of the model advisor, each brand
    cell holds "all" or one of the snapshot's brand options; a listed brand
    is left as it is, and running the effect again changes nothing. The
    supplier page's effect does the same for its selected brand. *)
Theorem brand_cells_hold_listed_brands (options : list string) (brand : string) :
  (let r := ModelAdvisor.normalizeBudgetBrand options brand in
   (r = "all"%string \/ In r options)
   /\ ModelAdvisor.normalizeBudgetBrand options r = r
   /\ (In brand options -> r = brand))
  /\ (let r := ModelAdvisorPage.normalizeSelectedBrand options brand in
      (r = "all"%string \/ In r options)
      /\ ModelAdvisorPage.normalizeSelectedBrand options r = r
      /\ (In brand options -> r = brand))
  /\ (let r := Supplier.normalizeSelectedBrand options brand in
      (r = "all"%string \/ In r options)
      /\ Supplier.normalizeSelectedBrand options r = r
      /\ (In brand options -> r = brand)).
Proof.
  pose proof (normalizeBudgetBrand_valid options brand) as [A1 [A2 A3]].
  pose proof (normalizeSelectedBrand_valid options brand) as [B1 [B2 B3]].
  cbv zeta in *.
  split; [| split].
  - split; [| split; [exact A2 |]].
    + destruct A1 as [E | I]; [left; exact E | right; apply includes_In; exact I].
    + intro H. apply A3. apply includes_In. exact H.
  - change (ModelAdvisorPage.normalizeSelectedBrand options)
      with (ModelAdvisor.normalizeBudgetBrand options).
    split; [| split; [exact A2 |]].
    + destruct A1 as [E | I]; [left; exact E | right; apply includes_In; exact I].
    + intro H. apply A3. apply includes_In. exact H.
  - split; [| split; [exact B2 |]].
    + destruct B1 as [E | I]; [left; exact E | right; apply includes_In; exact I].
    + intro H. apply B3. apply includes_In. exact H.
Qed.

(** X17, at the one brand option "Acme" and the selections "Acme" and
    "Zeta". *)
Lemma brand_cells_hold_listed_brands_witness :
  ModelAdvisor.normalizeBudgetBrand ["Acme"%string] "Acme" = "Acme"%string
  /\ ModelAdvisorPage.normalizeSelectedBrand ["Acme"%string] "Acme" = "Acme"%string
  /\ Supplier.normalizeSelectedBrand ["Acme"%string] "Acme" = "Acme"%string.
Proof.
  destruct (brand_cells_hold_listed_brands ["Acme"%string] "Acme")
    as [[_ [_ H1]] [[_ [_ H2]] [_ [_ H3]]]].
  split; [apply H1; simpl; auto |].
  split; [apply H2; simpl; auto | apply H3; simpl; auto].
Defined.

(** X18. Once the selected brand is normalised, the browsed models are
    never a dead end for want of a brand entry: they are all models of the
    snapshot, or the models of a brand entry carrying the selected name. *)
Theorem visible_models_after_normalising
        (d : ModelAdvisor.ModelAdvisorResponse) (brand : string) :
  let r := ModelAdvisorPage.normalizeSelectedBrand
             (ModelAdvisor.brandOptions (Some d)) brand in
  (r = "all"%string
   /\ ModelAdvisorPage.visibleModels (Some d) r = ModelAdvisor.models d)
  \/ (exists entry,
         In entry (ModelAdvisor.brands d)
         /\ ModelAdvisor.mb_brand entry = r
         /\ ModelAdvisorPage.visibleModels (Some d) r = ModelAdvisor.mb_models entry).
Proof.
  intro r.
  pose proof (normalizeBudgetBrand_valid (ModelAdvisor.brandOptions (Some d)) brand)
    as [V _].
  change (ModelAdvisor.normalizeBudgetBrand (ModelAdvisor.brandOptions (Some d)) brand)
    with r in V.
  unfold ModelAdvisorPage.visibleModels.
  destruct (String.eqb_spec r "all") as [E | N].
  - left. split; [exact E | reflexivity].
  - right. destruct V as [E | I]; [contradiction |].
    apply includes_In in I. simpl in I.
    destruct (find_brand_entry _ _ I) as [entry [F [Hin Hb]]].
    exists entry. rewrite F. auto.
Qed.

(** X19. After the effect on the active key of the supplier page, the key
    is absent exactly when there are no dataset keys, and is otherwise one
    of them, a listed non-empty key being kept; and a listed non-empty key
    other than "overall" always finds its dataset, as does "overall" when
    the combined dataset is present. *)
Theorem active_key_is_a_dataset_key
        (data : option SupplierScores.SupplierInsightsResponse)
        (activeKey : option string) :
  let keys := SupplierScores.datasetKeys data in
  let k := SupplierScores.normalizeActiveKey keys activeKey in
  (keys = [] -> k = None)
  /\ (keys <> [] -> exists key, k = Some key /\ In key keys)
  /\ (forall key, activeKey = Some key -> key <> ""%string -> In key keys -> k = Some key)
  /\ (forall d key,
         data = Some d -> In key keys -> key <> ""%string ->
         (key = "overall"%string -> SupplierScores.overall d <> None) ->
         SupplierScores.activeDataset data (Some key) <> None).
Proof.
  intros keys k. subst k. unfold SupplierScores.normalizeActiveKey.
  split; [| split; [| split]].
  - intros ->. reflexivity.
  - intro Hne. destruct keys as [| k0 t] eqn:E; [contradiction |].
    simpl JS.isEmpty. cbv iota.
    destruct activeKey as [key |].
    + destruct (String.eqb key "" || negb (JS.includes (k0 :: t) key)) eqn:B.
      * exists k0. simpl. auto.
      * exists key. split; [reflexivity |].
        apply orb_false_iff in B. destruct B as [_ B].
        apply negb_false_iff in B. apply includes_In. exact B.
    + exists k0. simpl. auto.
  - intros key -> Hne Hin.
    destruct keys as [| k0 t] eqn:E; [contradiction |].
    simpl JS.isEmpty. cbv iota.
    rewrite (proj2 (String.eqb_neq _ _) Hne).
    rewrite (proj2 (includes_In _ _) Hin). reflexivity.
  - intros d key -> Hin Hne Hov.
    unfold SupplierScores.activeDataset.
    rewrite (proj2 (String.eqb_neq _ _) Hne).
    destruct (String.eqb_spec key "overall") as [E | N]; [apply Hov; exact E |].
    subst keys. unfold SupplierScores.datasetKeys in Hin.
    apply in_app_or in Hin. destruct Hin as [Hin | Hin].
    + destruct (JS.isSome (SupplierScores.overall d)); simpl in Hin; [| contradiction].
      destruct Hin as [E | []]. congruence.
    + apply lookup_listed in Hin.
      destruct (JS.lookup key _); [discriminate | discriminate].
Qed.

(** X19, at a response with the one dataset "amazon" and the stale key
    "flipkart". *)
Lemma active_key_is_a_dataset_key_witness :
  SupplierScores.normalizeActiveKey
    (SupplierScores.datasetKeys (Some ScoreSamples.response)) (Some "flipkart"%string)
  = Some "amazon"%string
  /\ SupplierScores.normalizeActiveKey
       (SupplierScores.datasetKeys (Some ScoreSamples.response)) (Some "amazon"%string)
     = Some "amazon"%string
  /\ SupplierScores.activeDataset (Some ScoreSamples.response) (Some "amazon"%string) <> None.
Proof.
  destruct (active_key_is_a_dataset_key (Some ScoreSamples.response) (Some "flipkart"%string))
    as [_ [H2 [_ H4]]].
  destruct (active_key_is_a_dataset_key (Some ScoreSamples.response) (Some "amazon"%string))
    as [_ [_ [H3 _]]].
  split.
  - destruct H2 as [key [E Hin]]; [discriminate |].
    rewrite E. simpl in Hin. destruct Hin as [<- | []]. reflexivity.
  - split.
    + apply H3; [reflexivity | discriminate | simpl; auto].
    + apply (H4 ScoreSamples.response); [reflexivity | simpl; auto | discriminate | discriminate].
Defined.

(** ** BuyerInsights: ties and the brand filter *)

Section BuyerPageFacts.
Import JS Buyer BuyerPage.

Lemma first_match_splits {X : Type} (f : X -> bool) l b :
  hd_error (filter f l) = Some b ->
  exists before after,
    l = before ++ b :: after /\ Forall (fun x => f x = false) before.
Proof.
  induction l as [| x t IH]; simpl; [discriminate |].
  destruct (f x) eqn:E.
  - simpl. intro H. injection H as ->. exists [], t. split; [reflexivity | constructor].
  - intro H. destruct (IH H) as [before [after [-> Hb]]].
    exists (x :: before), after. split; [reflexivity | constructor; assumption].
Qed.

(** X20. Among the models of the scope that share the top score, the top
    pick is the one that comes first in the snapshot: every model before it
    scores strictly less. *)
Theorem top_pick_is_first_among_ties
        (pool : list (nat * ModelAnalysisEntry)) (brandSegment : option BuyerBrandSegment)
        (b : nat * ModelAnalysisEntry) :
  bestModel pool brandSegment = Some b ->
  exists before after,
    pool = before ++ b :: after
    /\ Forall (fun m => score (snd m) < score (snd b)) before.
Proof.
  rewrite bestModel_head. intro H.
  pose proof (sort_head_first compareScore compareScore_trans compareScore_total pool b H)
    as [Hin Hmax].
  assert (hd_error (filter (scoresAs (score (snd b))) pool) = Some b) as Hfirst.
  { rewrite <- (sort_stable compareScore (scoresAs (score (snd b)))).
    - destruct (sort compareScore pool) as [| h rest]; [discriminate |].
      injection H as ->. simpl. unfold scoresAs at 1.
      rewrite (proj2 (Qeq_bool_iff _ _) (Qeq_refl _)). reflexivity.
    - intros x y Hx Hy. unfold scoresAs in *.
      apply Qeq_bool_iff in Hx. apply Qeq_bool_iff in Hy.
      unfold compareScore. cbv zeta. lra. }
  destruct (first_match_splits _ _ _ Hfirst) as [before [after [E Hb]]].
  exists before, after. split; [exact E |].
  apply Forall_forall. intros m Hm.
  eapply Forall_forall in Hb; [| exact Hm].
  assert (In m pool) as Hp by (rewrite E; apply in_or_app; left; exact Hm).
  unfold scoresAs in Hb. apply Qeq_bool_neq in Hb.
  destruct (Hmax m Hp) as [Hc | ->].
  - unfold compareScore in Hc. cbv zeta in Hc.
    destruct (Qlt_le_dec (score (snd m)) (score (snd b))) as [L | G]; [exact L |].
    exfalso. apply Hb. lra.
  - exfalso. apply Hb. reflexivity.
Qed.

(** X20, at two sample models of equal score. *)
Lemma top_pick_is_first_among_ties_witness :
  exists before after,
    refs [Samples.rated; Samples.rated] = before ++ (0%nat, Samples.rated) :: after
    /\ Forall (fun m => score (snd m) < score Samples.rated) before.
Proof.
  apply (top_pick_is_first_among_ties (refs [Samples.rated; Samples.rated]) None
           (0%nat, Samples.rated)).
  vm_compute. reflexivity.
Defined.

Lemma addName_spec names name x :
  In x (addName names name) <-> In x names \/ x = name.
Proof.
  unfold addName. destruct (includes names name) eqn:I.
  - apply includes_In in I. split; [auto |]. intros [H | ->]; assumption.
  - rewrite in_app_iff. simpl. split; intros [H | H]; auto.
    + destruct H as [<- | []]. auto.
Qed.

Lemma addName_NoDup names name : NoDup names -> NoDup (addName names name).
Proof.
  intro H. unfold addName. destruct (includes names name) eqn:I; [exact H |].
  apply NoDup_app; [exact H | repeat constructor; intros [] |].
  intros x Hx [<- | []].
  apply includes_In in Hx. congruence.
Qed.

Lemma collectNames_spec candidates : forall names x,
  In x (collectNames names candidates)
  <-> In x names \/ (In x candidates /\ named x = true).
Proof.
  unfold collectNames.
  induction candidates as [| c t IH]; intros names x; simpl.
  - tauto.
  - rewrite IH. destruct (named c) eqn:N.
    + rewrite addName_spec. split.
      * intros [[H | ->] | [H Hn]]; auto.
      * intros [H | [[<- | H] Hn]]; auto.
    + split.
      * intros [H | [H Hn]]; auto.
      * intros [H | [[<- | H] Hn]]; auto. congruence.
Qed.

Lemma collectNames_NoDup candidates : forall names,
  NoDup names -> NoDup (collectNames names candidates).
Proof.
  unfold collectNames.
  induction candidates as [| c t IH]; intros names H; simpl; [exact H |].
  apply IH. destruct (named c); [apply addName_NoDup; exact H | exact H].
Qed.

(** X21. The brand filter of the buyer page lists each brand once, never
    the empty name and never "Unknown", and lists exactly the named brands
    of the brand analysis and of the brand segments, whatever the
    collation. *)
Theorem brand_filter_lists_named_brands
        (localeCompare : string -> string -> Q) (ds : BuyerPageDataset) :
  let options := brandOptions localeCompare (Some ds) in
  NoDup options
  /\ Forall (fun name => name <> ""%string /\ name <> "Unknown"%string) options
  /\ forall name,
       In name options
       <-> (named name = true
            /\ (In name (map ba_brand (brand_analysis (analysis ds) ?? []))
                \/ In name (map fst (brand_segments ds ?? [])))).
Proof.
  intro options. subst options. unfold brandOptions. cbv zeta.
  set (fromAnalysis := map ba_brand (brand_analysis (analysis ds) ?? [])).
  set (fromSegments := map fst (brand_segments ds ?? [])).
  assert (forall name,
             In name (sort localeCompare
                           (collectNames (collectNames [] fromAnalysis) fromSegments))
             <-> (named name = true
                  /\ (In name fromAnalysis \/ In name fromSegments))) as Hmem.
  { intro name. split.
    - intro H. apply (Permutation_in _ (sort_perm localeCompare _)) in H.
      apply collectNames_spec in H. rewrite collectNames_spec in H. simpl in H.
      tauto.
    - intros [Hn H].
      apply (Permutation_in _ (Permutation_sym (sort_perm localeCompare _))).
      apply collectNames_spec. rewrite collectNames_spec. simpl. tauto. }
  split; [| split; [| exact Hmem]].
  - apply (Permutation_NoDup (Permutation_sym (sort_perm localeCompare _))).
    apply collectNames_NoDup, collectNames_NoDup. constructor.
  - apply Forall_forall. intros name Hin. apply Hmem in Hin. destruct Hin as [Hn _].
    unfold named in Hn. apply andb_true_iff in Hn. destruct Hn as [H1 H2].
    apply negb_true_iff in H1. apply negb_true_iff in H2.
    split; apply String.eqb_neq; assumption.
Qed.

End BuyerPageFacts.
